(** * Locking-related NETCONF operations (ncclient/operations/lock.py)

    A shallow embedding of [Lock.request], [Unlock.request] and
    [LockContext], followed by the properties of the retry loop, of the
    escalation of rpc-errors and of the scoped lock/unlock pair. *)

From Stdlib Require Import String List ZArith Bool Lia.
Import ListNotations.

Local Open Scope string_scope.
Local Open Scope list_scope.
Local Open Scope Z_scope.

(** ** Data model *)

(** [RaiseMode] of ncclient.operations.rpc: NONE never raises, ERRORS raises
    when the primary rpc-error has severity "error", ALL raises for any
    rpc-error. *)
Inductive RaiseMode : Type := NONE | ERRORS | ALL.

Definition RaiseMode_eqb (a b : RaiseMode) : bool :=
  match a, b with
  | NONE, NONE | ERRORS, ERRORS | ALL, ALL => true
  | _, _ => false
  end.

(** An rpc-error as the lock code reads it: [tag], [severity], and the rest
    of the error kept as its message. *)
Record RPCError : Type := mkRPCError {
  tag : string;
  severity : string;
  message : string
}.

(** The reply object: [ok], the ordered [errors], and the raw reply text. *)
Record RPCReply : Type := mkRPCReply {
  ok : bool;
  errors : list RPCError;
  _raw : string
}.

(** Modelled from the spec: the [error] property of the reply class (its
    code is not in lock.py); the primary error is the first element of
    [errors], absent when the list is empty. *)
Definition error (r : RPCReply) : option RPCError := hd_error (errors r).

(** XML elements built by [new_ele] / [sub_ele]. *)
#[local] Unset Elimination Schemes.
Inductive ele : Type := Ele (name : string) (children : list ele).
#[local] Set Elimination Schemes.

Definition new_ele (name : string) : ele := Ele name [].

(** [sub_ele(sub_ele(node, outer), inner)]: [sub_ele] appends a fresh child
    to its parent and returns the child, so the nested call leaves [node]
    with one more child [outer], itself holding the empty child [inner]. *)
Definition sub_ele2 (node : ele) (outer inner : string) : ele :=
  match node with
  | Ele n cs => Ele n (cs ++ [Ele outer [Ele inner []]])
  end.

Definition lock_node (target : string) : ele :=
  sub_ele2 (new_ele "lock") "target" target.

Definition unlock_node (target : string) : ele :=
  sub_ele2 (new_ele "unlock") "target" target.

(** What can be raised. *)
Inductive exn : Type :=
| ExnRPCError (e : RPCError)                        (* raise self._reply.error *)
| ExnAggregate (raw : string) (errs : list RPCError)  (* the channel's RPCError(raw, errs=errors) *)
| IndexError                                         (* errors[0] on an empty list *)
| NoneError                                          (* use of a missing primary error *)
| NameError                                          (* a name the module does not bind *)
| BlockError (what : string).                        (* raised by a protected block *)

(** A sleep length in seconds, [numerator / denominator].  [time.sleep]
    rejects a negative length with ValueError; the interval of a lock call
    is a duration, and the type leaves negative lengths out. *)
Record duration : Type := mkDuration {
  numerator : N;
  denominator : positive
}.

Inductive log_msg : Type :=
| UsingBlocking                  (* 'Using blocking lock behavior' *)
| AttemptedTimes (tries : Z).    (* 'Attempted to acquire lock %d times so far' *)

(** Everything observable on the session, in order. *)
Inductive event : Type :=
| Sent (node : ele) (mode : RaiseMode)   (* a request, with the raise mode in effect *)
| Slept (interval : duration)                   (* time.sleep(interval) *)
| Registered                             (* self._listener.register(self._id, self) *)
| Logged (msg : log_msg)
| BlockRan (what : string).

Definition Session : Type := list event.

Definition is_sent (ev : event) : bool :=
  match ev with Sent _ _ => true | _ => false end.

Definition requests_sent (s : Session) : nat := length (filter is_sent s).

(** The RPC object: the two fields lock.py touches, and the session it
    borrows. *)
Record RPC : Type := mkRPC {
  _raise_mode : RaiseMode;
  _reply : option RPCReply;
  session : Session
}.

Definition new_RPC (sess : Session) (raise_mode : RaiseMode) : RPC :=
  {| _raise_mode := raise_mode; _reply := None; session := sess |}.

(** ** A state and exception monad with a fuel outcome *)

Inductive result (A : Type) : Type :=
| Ret (a : A)
| Raise (e : exn)
| OutOfFuel.

Arguments Ret {A} a.
Arguments Raise {A} e.
Arguments OutOfFuel {A}.

Definition M (S A : Type) : Type := S -> S * result A.

Definition ret {S A} (a : A) : M S A := fun s => (s, Ret a).

Definition raise {S A} (e : exn) : M S A := fun s => (s, Raise e).

Definition bind {S A B} (m : M S A) (k : A -> M S B) : M S B :=
  fun s =>
    match m s with
    | (s', Ret a) => k a s'
    | (s', Raise e) => (s', Raise e)
    | (s', OutOfFuel) => (s', OutOfFuel)
    end.

Declare Scope lock_scope.
Delimit Scope lock_scope with lock.
Notation "x <- c ;; k" := (bind c (fun x => k))
  (at level 100, c at next level, right associativity) : lock_scope.
Notation "c ;;; k" := (bind c (fun _ => k))
  (at level 100, right associativity) : lock_scope.
Local Open Scope lock_scope.

Definition emit (ev : event) : M RPC unit :=
  fun self =>
    ({| _raise_mode := _raise_mode self;
        _reply := _reply self;
        session := session self ++ [ev] |}, Ret tt).

Definition get_raise_mode : M RPC RaiseMode :=
  fun self => (self, Ret (_raise_mode self)).

Definition set_raise_mode (m : RaiseMode) : M RPC unit :=
  fun self =>
    ({| _raise_mode := m; _reply := _reply self; session := session self |},
     Ret tt).

(** [self._reply]; None before any request was made. *)
Definition get_reply : M RPC RPCReply :=
  fun self =>
    match _reply self with
    | Some r => (self, Ret r)
    | None => (self, Raise NoneError)
    end.

(** [errors[0]] *)
Definition index0 (errs : list RPCError) : M RPC RPCError :=
  match errs with
  | e :: _ => ret e
  | [] => raise IndexError
  end.

(** [reply.error] used as an object: [.severity], or [raise]. *)
Definition primary (r : RPCReply) : M RPC RPCError :=
  match error r with
  | Some e => ret e
  | None => raise NoneError
  end.

(** The exception the channel builds from a reply: the aggregate when there
    are several errors, else the single one. *)
Definition raise_errors {A} (r : RPCReply) : M RPC A :=
  let errors := errors r in
  if (1 <? Z.of_nat (length errors)) then
    raise (ExnAggregate (_raw r) errors)
  else
    match error r with
    | Some e => raise (ExnRPCError e)
    | None => raise NoneError
    end.

Section Channel.

(** The managed device: its reply to the request numbered [k] on the
    session (counting from 0), given the request body. *)
Variable device : nat -> ele -> RPCReply.

(** Modelled from the spec: when the channel call raises (the code of
    [RPC._request] is in ncclient/operations/rpc.py, not in lock.py): never
    under NONE, for any rpc-error under ALL, and only when the primary error
    has severity "error" under ERRORS. *)
Definition channel_raises (mode : RaiseMode) (r : RPCReply) : bool :=
  match error r with
  | None => false
  | Some e =>
      RaiseMode_eqb mode ALL
      || (RaiseMode_eqb mode ERRORS && (severity e =? "error")%string)
  end.

(** Modelled from the spec: [RPC._request], the synchronous channel call
    missing from lock.py.  It puts the request on the session, stores the
    device's reply in [self._reply], and either raises from the reply, as
    [channel_raises] says for the mode in [self._raise_mode], or returns
    it. *)
Definition _request (node : ele) : M RPC RPCReply :=
  fun self =>
    let reply := device (requests_sent (session self)) node in
    let self' := {| _raise_mode := _raise_mode self;
                    _reply := Some reply;
                    session := session self ++ [Sent node (_raise_mode self)] |} in
    if channel_raises (_raise_mode self) reply
    then raise_errors reply self'
    else (self', Ret reply).

(** ** Lock *)

(** The [while True] loop of [Lock.request] (lines 46-71); [tries] is the
    counter on entry to the iteration. *)
Fixpoint lock_loop (fuel : nat) (node : ele) (retries : Z) (interval : duration)
    (tries : Z) : M RPC RPCReply :=
  match fuel with
  | O => fun self => (self, OutOfFuel)
  | S fuel' =>
      lock_result <- _request node ;;
      if ok lock_result then ret lock_result
      else
        let tries := tries + 1 in
        if (0 <? retries) && (retries <? tries) then ret lock_result
        else
          e0 <- index0 (errors lock_result) ;;
          if negb (tag e0 =? "lock-denied")%string then ret lock_result
          else
            emit (Slept interval) ;;;
            emit Registered ;;;
            (if (tries mod 10 =? 0) then emit (Logged (AttemptedTimes tries))
             else ret tt) ;;;
            lock_loop fuel' node retries interval tries
  end.

(** Lines 73-83: raise from the last result under the saved mode, or
    return it.  Line 78 builds the aggregate from the name [RPCError], which
    lock.py does not bind (it imports [RaiseMode] and [RPC] from the rpc
    module, and the names of xml_): with more than one error the lookup of
    that name fails with NameError before anything is built. *)
Definition escalate (raise_mode_original : RaiseMode) (lock_result : RPCReply)
  : M RPC RPCReply :=
  if negb (ok lock_result) then
    must_raise <-
      (if RaiseMode_eqb raise_mode_original ALL then ret true
       else if RaiseMode_eqb raise_mode_original ERRORS then
         e <- primary lock_result ;; ret (severity e =? "error")%string
       else ret false) ;;
    if (must_raise : bool) then
      reply <- get_reply ;;
      let errors := errors reply in
      if (1 <? Z.of_nat (length errors)) then raise NameError
      else
        e <- primary reply ;;
        raise (ExnRPCError e)
    else ret lock_result
  else ret lock_result.

(** if a blocking lock is requested, how long between lock attempts?
    (0.01 seconds) *)
Definition DEFAULT_BLOCKING_WAIT : duration :=
  {| numerator := 1; denominator := 100 |}.

Definition Lock_request (fuel : nat) (target : string) (blocking : bool)
    (retries : Z) (interval : duration) : M RPC RPCReply :=
  let node := lock_node target in
  if negb blocking then _request node
  else
    emit (Logged UsingBlocking) ;;;
    raise_mode_original <- get_raise_mode ;;
    let tries := 0 in
    set_raise_mode NONE ;;;
    lock_result <- lock_loop fuel node retries interval tries ;;
    escalate raise_mode_original lock_result.

(** ** Unlock *)

Definition Unlock_request (target : string) : M RPC RPCReply :=
  let node := unlock_node target in
  _request node.

(** ** LockContext *)

Record LockContext : Type := mkLockContext {
  target : string;
  blocking : bool;
  retries : Z;
  interval : duration
}.

(** Run a request on a fresh RPC object over the session and hand the
    session back. *)
Definition on_session {A} (raise_mode : RaiseMode) (m : M RPC A)
  : M Session A :=
  fun sess =>
    let (self, r) := m (new_RPC sess raise_mode) in
    (session self, r).

Definition __enter__ (fuel : nat) (self : LockContext) : M Session LockContext :=
  bind (on_session ERRORS
          (Lock_request fuel (target self) (blocking self) (retries self)
             (interval self)))
       (fun _ => ret self).

Definition __exit__ (self : LockContext) : M Session bool :=
  bind (on_session ERRORS (Unlock_request (target self)))
       (fun _ => ret false).

(** The [with] statement over a LockContext: [Ret None] stands for a block
    exception swallowed by [__exit__]. *)
Definition with_ {A} (fuel : nat) (ctx : LockContext)
    (block : LockContext -> M Session A) : M Session (option A) :=
  fun sess =>
    match __enter__ fuel ctx sess with
    | (s1, Ret c) =>
        match block c s1 with
        | (s2, Ret v) =>
            match __exit__ ctx s2 with
            | (s3, Ret _) => (s3, Ret (Some v))
            | (s3, Raise e) => (s3, Raise e)
            | (s3, OutOfFuel) => (s3, OutOfFuel)
            end
        | (s2, Raise e) =>
            match __exit__ ctx s2 with
            | (s3, Ret suppress) =>
                if (suppress : bool) then (s3, Ret None) else (s3, Raise e)
            | (s3, Raise e') => (s3, Raise e')
            | (s3, OutOfFuel) => (s3, OutOfFuel)
            end
        | (s2, OutOfFuel) => (s2, OutOfFuel)
        end
    | (s1, Raise e) => (s1, Raise e)
    | (s1, OutOfFuel) => (s1, OutOfFuel)
    end.

End Channel.

(** ** Vocabulary of the statements *)

(** A reply that keeps the blocking loop going: not ok, primary tag
    "lock-denied". *)
Definition lock_denied (r : RPCReply) : Prop :=
  ok r = false /\ exists e rest, errors r = e :: rest /\ tag e = "lock-denied".

(** A reply that is a failure other than lock-denied. *)
Definition non_retryable (r : RPCReply) : Prop :=
  ok r = false /\ exists e rest, errors r = e :: rest /\ tag e <> "lock-denied".

(** The numeric bound of line 55, on the counter after its increment. *)
Definition exhausted (retries tries : Z) : Prop := 0 < retries /\ retries < tries.

(** The exceptions that carry rpc-errors. *)
Definition is_rpc_exception (e : exn) : Prop :=
  match e with
  | ExnRPCError _ | ExnAggregate _ _ => True
  | _ => False
  end.

(** The pause between two attempts (lines 66-71). *)
Definition wait (interval : duration) (tries : Z) : M RPC unit :=
  emit (Slept interval) ;;;
  emit Registered ;;;
  (if (tries mod 10 =? 0) then emit (Logged (AttemptedTimes tries))
   else ret tt).

Definition after_send (device : nat -> ele -> RPCReply) (node : ele)
    (self : RPC) : RPC :=
  {| _raise_mode := _raise_mode self;
     _reply := Some (device (requests_sent (session self)) node);
     session := session self ++ [Sent node (_raise_mode self)] |}.

(** The state in which the blocking loop starts: the debug line logged,
    raising switched off (lines 42-45). *)
Definition armed (self : RPC) : RPC :=
  {| _raise_mode := NONE;
     _reply := _reply self;
     session := session self ++ [Logged UsingBlocking] |}.

(** The exception [raise_errors] raises. *)
Definition errors_exn (r : RPCReply) : exn :=
  if (1 <? Z.of_nat (length (errors r))) then ExnAggregate (_raw r) (errors r)
  else match error r with
       | Some e => ExnRPCError e
       | None => NoneError
       end.

(** The exception lines 76-80 end in, for the last reply [r]. *)
Definition last_exn (r : RPCReply) : exn :=
  if (1 <? Z.of_nat (length (errors r))) then NameError
  else match error r with
       | Some e => ExnRPCError e
       | None => NoneError
       end.

(** An outcome passed through when it is not a value. *)
Definition and_then {S A B} (o : S * result A) (k : A -> M S B)
  : S * result B :=
  match o with
  | (s, Ret a) => k a s
  | (s, Raise e) => (s, Raise e)
  | (s, OutOfFuel) => (s, OutOfFuel)
  end.

(** The requests among a list of events. *)
Definition requests (evs : list event) : list event := filter is_sent evs.

(** An attempt after which the loop went round again: the reply numbered
    [k] was lock-denied and the bound was not reached, the loop having
    started at request [base] with its counter at [tries]. *)
Definition retried (device : nat -> ele -> RPCReply) (node : ele)
    (retries tries : Z) (base k : nat) : Prop :=
  lock_denied (device k node)
  /\ ~ exhausted retries (tries + Z.of_nat (k - base) + 1).

(** How the loop stopped at its attempt number [n] (from 0). *)
Definition loop_end (device : nat -> ele -> RPCReply) (node : ele)
    (retries tries : Z) (base fuel cnt : nat) (self' : RPC)
    (res : result RPCReply) : Prop :=
  match res with
  | Ret r =>
      exists n, cnt = S n
        /\ r = device (base + n)%nat node
        /\ _reply self' = Some r
        /\ (ok r = true
            \/ (ok r = false /\ exhausted retries (tries + Z.of_nat n + 1))
            \/ (non_retryable r
                /\ ~ exhausted retries (tries + Z.of_nat n + 1)))
  | Raise e =>
      exists n, cnt = S n
        /\ e = IndexError
        /\ _reply self' = Some (device (base + n)%nat node)
        /\ ok (device (base + n)%nat node) = false
        /\ errors (device (base + n)%nat node) = []
        /\ ~ exhausted retries (tries + Z.of_nat n + 1)
  | OutOfFuel =>
      cnt = fuel
      /\ (forall k, (base <= k < base + cnt)%nat ->
                    retried device node retries tries base k)
  end.

(** What a run of the loop leaves behind: raising still off, [cnt] lock
    requests added to the session, all but the last of them retried. *)
Definition loop_post (device : nat -> ele -> RPCReply) (node : ele)
    (retries tries : Z) (fuel : nat) (self self' : RPC)
    (res : result RPCReply) : Prop :=
  let base := requests_sent (session self) in
  _raise_mode self' = NONE
  /\ exists evs cnt,
       session self' = session self ++ evs
       /\ requests evs = repeat (Sent node NONE) cnt
       /\ (forall k, (base <= k)%nat -> (S k < base + cnt)%nat ->
                     retried device node retries tries base k)
       /\ loop_end device node retries tries base fuel cnt self' res.

(** ** The shape of a blocking call's trace *)

(** The periodic debug line of lines 70-71, for the counter value [tries]. *)
Definition attempt_log (tries : Z) : list event :=
  if (tries mod 10 =? 0) then [Logged (AttemptedTimes tries)] else [].

(** [n] turns of the loop that went round again, the counter standing at
    [tries] before the first: each is a request, the sleep, the listener
    primed again, and the debug line when it is due. *)
Fixpoint rounds (node : ele) (interval : duration) (n : nat) (tries : Z)
  : list event :=
  match n with
  | O => []
  | S m =>
      [Sent node NONE; Slept interval; Registered]
        ++ attempt_log (tries + 1)
        ++ rounds node interval m (tries + 1)
  end.

(** The request of the turn on which the loop stopped; none when the fuel
    ran out between turns. *)
Definition last_request {A} (node : ele) (res : result A) : list event :=
  match res with
  | OutOfFuel => []
  | _ => [Sent node NONE]
  end.

Definition is_slept (ev : event) : bool :=
  match ev with Slept _ => true | _ => false end.

Definition is_registered (ev : event) : bool :=
  match ev with Registered => true | _ => false end.

(** The sleeps among a list of events. *)
Definition sleeps (evs : list event) : list event := filter is_slept evs.

(** What lines 74-83 make of a last reply that is ok or carries an error,
    by the mode read on entry. *)
Definition policy_outcome (mode : RaiseMode) (r : RPCReply) : result RPCReply :=
  if ok r then Ret r
  else match mode with
       | NONE => Ret r
       | ALL => Raise (last_exn r)
       | ERRORS =>
           match error r with
           | None => Raise NoneError
           | Some e => if (severity e =? "error")%string
                       then Raise (last_exn r) else Ret r
           end
       end.

(** ** Sample replies, devices and scopes *)

Definition denied_error : RPCError :=
  {| tag := "lock-denied"; severity := "error"; message := "held by session 7" |}.

Definition warning_error : RPCError :=
  {| tag := "in-use"; severity := "warning"; message := "held by session 7" |}.

Definition sessions_error : RPCError :=
  {| tag := "too-many-sessions"; severity := "error"; message := "" |}.

Definition failed (errs : list RPCError) : RPCReply :=
  {| ok := false; errors := errs; _raw := "<rpc-reply/>" |}.

Definition ok_reply : RPCReply :=
  {| ok := true; errors := []; _raw := "<rpc-reply><ok/></rpc-reply>" |}.

(** Replies taken from a list, then [dflt] for ever. *)
Definition scripted (replies : list RPCReply) (dflt : RPCReply)
  : nat -> ele -> RPCReply :=
  fun k _ => nth k replies dflt.

(** The same reply to every request. *)
Definition always (r : RPCReply) : nat -> ele -> RPCReply := fun _ _ => r.

Definition fresh (mode : RaiseMode) : RPC := new_RPC [] mode.

Definition candidate : LockContext :=
  {| target := "candidate"; blocking := false; retries := 0;
     interval := DEFAULT_BLOCKING_WAIT |}.

Definition candidate_blocking : LockContext :=
  {| target := "candidate"; blocking := true; retries := 3;
     interval := DEFAULT_BLOCKING_WAIT |}.

Definition failing_block (what : string) : LockContext -> M Session unit :=
  fun _ sess => (sess ++ [BlockRan what], Raise (BlockError what)).

Definition quiet_block (what : string) : LockContext -> M Session unit :=
  fun _ sess => (sess ++ [BlockRan what], Ret tt).

(** ** Ground facts about sessions and the monad *)

Lemma requests_sent_app (s t : Session) :
  requests_sent (s ++ t) = (requests_sent s + requests_sent t)%nat.
Proof. unfold requests_sent. now rewrite filter_app, length_app. Qed.

Lemma requests_sent_requests (evs : list event) :
  requests_sent evs = length (requests evs).
Proof. reflexivity. Qed.

Lemma RaiseMode_eqb_eq (a b : RaiseMode) : RaiseMode_eqb a b = true <-> a = b.
Proof. destruct a, b; simpl; split; congruence. Qed.

Lemma channel_raises_NONE (r : RPCReply) : channel_raises NONE r = false.
Proof. unfold channel_raises. now destruct (error r). Qed.

Lemma wait_spec (interval : duration) (tries : Z) (self : RPC) :
  exists evs,
    wait interval tries self =
      ({| _raise_mode := _raise_mode self; _reply := _reply self;
          session := session self ++ evs |}, Ret tt)
    /\ requests evs = []
    /\ In (Slept interval) evs.
Proof.
  unfold wait, bind, emit, ret; simpl.
  destruct (tries mod 10 =? 0); simpl.
  - exists [Slept interval; Registered; Logged (AttemptedTimes tries)].
    rewrite <- !app_assoc. simpl. auto.
  - exists [Slept interval; Registered].
    rewrite <- !app_assoc. simpl. auto.
Qed.

Lemma raise_errors_exn {A} (r : RPCReply) (self : RPC) :
  @raise_errors A r self = (self, Raise (errors_exn r)).
Proof.
  unfold raise_errors, errors_exn, raise.
  destruct (1 <? Z.of_nat (length (errors r))); [reflexivity|].
  now destruct (error r).
Qed.

Lemma errors_exn_single (r : RPCReply) (e : RPCError) :
  errors r = [e] -> errors_exn r = ExnRPCError e.
Proof. unfold errors_exn, error. now intros ->. Qed.

Lemma errors_exn_several (r : RPCReply) :
  (2 <= length (errors r))%nat ->
  errors_exn r = ExnAggregate (_raw r) (errors r).
Proof.
  intros H. unfold errors_exn.
  destruct (1 <? Z.of_nat (length (errors r))) eqn:E; [reflexivity|].
  apply Z.ltb_ge in E. lia.
Qed.

Lemma last_exn_single (r : RPCReply) (e : RPCError) :
  errors r = [e] -> last_exn r = ExnRPCError e.
Proof. unfold last_exn, error. now intros ->. Qed.

Lemma last_exn_several (r : RPCReply) :
  (2 <= length (errors r))%nat -> last_exn r = NameError.
Proof.
  intros H. unfold last_exn.
  destruct (1 <? Z.of_nat (length (errors r))) eqn:E; [reflexivity|].
  apply Z.ltb_ge in E. lia.
Qed.

Lemma last_exn_nonempty (r : RPCReply) :
  errors r <> [] -> last_exn r <> IndexError /\ last_exn r <> NoneError.
Proof.
  intros H. unfold last_exn, error.
  destruct (1 <? Z.of_nat (length (errors r))); [split; discriminate|].
  destruct (errors r); [congruence | split; discriminate].
Qed.

(** [escalate] never touches the state, and its outcome by cases. *)
Lemma escalate_eq (mode : RaiseMode) (r : RPCReply) (s : RPC) :
  escalate mode r s =
    (s,
     let raised :=
       match _reply s with
       | Some r0 => Raise (last_exn r0)
       | None => Raise NoneError
       end in
     if ok r then Ret r
     else match mode with
          | NONE => Ret r
          | ALL => raised
          | ERRORS =>
              match error r with
              | None => Raise NoneError
              | Some e => if (severity e =? "error")%string
                          then raised else Ret r
              end
          end).
Proof.
  unfold escalate, last_exn, bind, ret, primary, get_reply, raise. cbv zeta.
  destruct (ok r); simpl; [reflexivity|].
  destruct mode; simpl.
  - reflexivity.
  - destruct (error r) as [e|]; simpl; [|reflexivity].
    destruct (severity e =? "error")%string; [|reflexivity].
    destruct (_reply s) as [r0|]; [|reflexivity].
    destruct (1 <? Z.of_nat (length (errors r0))); [reflexivity|].
    now destruct (error r0).
  - destruct (_reply s) as [r0|]; [|reflexivity].
    destruct (1 <? Z.of_nat (length (errors r0))); [reflexivity|].
    now destruct (error r0).
Qed.

Lemma escalate_state (mode : RaiseMode) (r : RPCReply) (s s' : RPC)
    (res : result RPCReply) :
  escalate mode r s = (s', res) -> s' = s.
Proof. rewrite escalate_eq. now inversion 1. Qed.

(** What [escalate] does with the last reply [r] of the loop, by mode. *)
Lemma escalate_spec (mode : RaiseMode) (r : RPCReply) (s : RPC) :
  _reply s = Some r ->
  escalate mode r s =
    (s,
     if ok r then Ret r
     else match mode with
          | NONE => Ret r
          | ALL => Raise (last_exn r)
          | ERRORS =>
              match error r with
              | None => Raise NoneError
              | Some e => if (severity e =? "error")%string
                          then Raise (last_exn r) else Ret r
              end
          end).
Proof.
  intros Hr. rewrite escalate_eq, Hr. reflexivity.
Qed.

Lemma Lock_request_blocking (device : nat -> ele -> RPCReply) (fuel : nat)
    (target : string) (retries : Z) (interval : duration) (self : RPC) :
  Lock_request device fuel target true retries interval self =
    and_then
      (lock_loop device fuel (lock_node target) retries interval 0 (armed self))
      (escalate (_raise_mode self)).
Proof.
  unfold Lock_request, and_then. cbn [negb]. cbv zeta.
  unfold bind at 1. unfold emit at 1.
  unfold bind at 1. unfold get_raise_mode at 1. cbn [_raise_mode].
  unfold bind at 1. unfold set_raise_mode at 1. cbn [_raise_mode _reply session].
  unfold bind at 1. fold (armed self).
  destruct (lock_loop device fuel (lock_node target) retries interval 0
              (armed self)) as [s1 [r|e|]]; reflexivity.
Qed.

Lemma requests_sent_armed (self : RPC) :
  requests_sent (session (armed self)) = requests_sent (session self).
Proof.
  unfold armed. cbn [session]. rewrite requests_sent_app.
  change (requests_sent [Logged UsingBlocking]) with 0%nat. lia.
Qed.

Lemma In_requests (evs : list event) (node n : ele) (m : RaiseMode) (cnt : nat) :
  requests evs = repeat (Sent node NONE) cnt ->
  In (Sent n m) evs -> n = node /\ m = NONE.
Proof.
  intros Hreq Hin.
  assert (H : In (Sent n m) (requests evs))
    by (unfold requests; apply filter_In; now split).
  rewrite Hreq in H. apply repeat_spec in H. now inversion H.
Qed.

Section LoopFacts.

Variable device : nat -> ele -> RPCReply.
Variable node : ele.
Variable retries : Z.
Variable interval : duration.

Lemma _request_NONE (self : RPC) :
  _raise_mode self = NONE ->
  _request device node self =
    (after_send device node self,
     Ret (device (requests_sent (session self)) node)).
Proof.
  intros Hm. unfold _request, after_send. rewrite Hm.
  now rewrite channel_raises_NONE.
Qed.

(** One iteration of the loop, once raising is switched off. *)
Lemma lock_loop_step (fuel : nat) (tries : Z) (self : RPC) :
  _raise_mode self = NONE ->
  lock_loop device (S fuel) node retries interval tries self =
    let r := device (requests_sent (session self)) node in
    let s1 := after_send device node self in
    if ok r then (s1, Ret r)
    else if (0 <? retries) && (retries <? tries + 1) then (s1, Ret r)
    else match errors r with
         | [] => (s1, Raise IndexError)
         | e0 :: _ =>
             if negb (tag e0 =? "lock-denied")%string then (s1, Ret r)
             else lock_loop device fuel node retries interval (tries + 1)
                    (fst (wait interval (tries + 1) s1))
         end.
Proof.
  intros Hm. cbn [lock_loop]. unfold bind at 1.
  rewrite (_request_NONE self Hm). cbv zeta.
  destruct (ok (device (requests_sent (session self)) node)); [reflexivity|].
  destruct ((0 <? retries) && (retries <? tries + 1)); [reflexivity|].
  destruct (errors (device (requests_sent (session self)) node)) as [|e0 rest];
    [reflexivity|].
  unfold bind at 1. simpl index0. unfold ret at 1.
  destruct (negb (tag e0 =? "lock-denied")%string); [reflexivity|].
  unfold wait, bind, emit, ret.
  now destruct ((tries + 1) mod 10 =? 0).
Qed.

Lemma exhausted_test (tries : Z) :
  (0 <? retries) && (retries <? tries) = true <-> exhausted retries tries.
Proof.
  unfold exhausted. rewrite andb_true_iff, !Z.ltb_lt. tauto.
Qed.

Lemma lock_loop_post (fuel : nat) :
  forall (tries : Z) (self self' : RPC) (res : result RPCReply),
    _raise_mode self = NONE ->
    lock_loop device fuel node retries interval tries self = (self', res) ->
    loop_post device node retries tries fuel self self' res.
Proof.
  induction fuel as [|fuel IH]; intros tries self self' res Hm Hrun.
  - cbn in Hrun. inversion Hrun; subst. split; [assumption|].
    exists [], 0%nat. rewrite app_nil_r. repeat split; simpl; intros; lia.
  - rewrite (lock_loop_step fuel tries self Hm) in Hrun. cbv zeta in Hrun.
    set (base := requests_sent (session self)) in *.
    set (r := device base node) in *.
    assert (Hone : session (after_send device node self)
                   = session self ++ [Sent node NONE])
      by (unfold after_send; simpl; now rewrite Hm).
    assert (Hrep : _reply (after_send device node self) = Some r)
      by reflexivity.
    assert (Hmode : _raise_mode (after_send device node self) = NONE)
      by exact Hm.
    destruct (ok r) eqn:Hok.
    { inversion Hrun; subst self' res. split; [assumption|].
      exists [Sent node NONE], 1%nat. repeat split; auto; try (intros; lia).
      exists 0%nat. rewrite Nat.add_0_r. repeat split; auto. }
    destruct ((0 <? retries) && (retries <? tries + 1)) eqn:Hex.
    { apply exhausted_test in Hex.
      inversion Hrun; subst self' res. split; [assumption|].
      exists [Sent node NONE], 1%nat. repeat split; auto; try (intros; lia).
      exists 0%nat. rewrite Nat.add_0_r. repeat split; auto.
      right; left. split; [assumption|]. now rewrite Z.add_0_r. }
    assert (Hnex : ~ exhausted retries (tries + 1)).
    { intros H. apply exhausted_test in H. congruence. }
    destruct (errors r) as [|e0 rest] eqn:Herr.
    { inversion Hrun; subst self' res. split; [assumption|].
      exists [Sent node NONE], 1%nat. repeat split; auto; try (intros; lia).
      exists 0%nat. rewrite Nat.add_0_r. repeat split; auto.
      now rewrite Z.add_0_r. }
    destruct (negb (tag e0 =? "lock-denied")%string) eqn:Htag.
    { apply negb_true_iff, String.eqb_neq in Htag.
      inversion Hrun; subst self' res. split; [assumption|].
      exists [Sent node NONE], 1%nat. repeat split; auto; try (intros; lia).
      exists 0%nat. rewrite Nat.add_0_r. repeat split; auto.
      right; right. split; [|now rewrite Z.add_0_r].
      split; [assumption|]. now exists e0, rest. }
    apply negb_false_iff, String.eqb_eq in Htag.
    assert (Hden : retried device node retries tries base base).
    { split.
      - split; [assumption|]. now exists e0, rest.
      - now rewrite Nat.sub_diag, Z.add_0_r. }
    destruct (wait_spec interval (tries + 1) (after_send device node self))
      as (evw & Hw & Hnoreq & _).
    rewrite Hw in Hrun. cbn [fst] in Hrun.
    rewrite Hone, Hrep, Hmode in Hrun.
    apply IH in Hrun; [|reflexivity].
    destruct Hrun as (Hm' & evs & cnt & Hs & Hreq & Hprior & Hend).
    cbn [session] in Hs, Hprior, Hend.
    assert (Hbase : requests_sent ((session self ++ [Sent node NONE]) ++ evw)
                    = S base).
    { rewrite !requests_sent_app.
      rewrite (requests_sent_requests evw), Hnoreq.
      change (requests_sent [Sent node NONE]) with 1%nat.
      change (length (@nil event)) with 0%nat. subst base. lia. }
    rewrite Hbase in Hprior, Hend.
    assert (Hshift : forall k, (S base <= k)%nat ->
              retried device node retries (tries + 1) (S base) k ->
              retried device node retries tries base k).
    { intros k Hk [Hd Hn]. split; [assumption|].
      replace (tries + Z.of_nat (k - base) + 1)
        with (tries + 1 + Z.of_nat (k - S base) + 1) by lia.
      assumption. }
    assert (Hall : forall k, (base <= k)%nat -> (S k < base + S cnt)%nat ->
              retried device node retries tries base k).
    { intros k Hk1 Hk2. destruct (Nat.eq_dec k base) as [->|Hne];
        [assumption|].
      apply Hshift; [lia|]. apply Hprior; lia. }
    split; [assumption|].
    exists ([Sent node NONE] ++ evw ++ evs), (S cnt).
    split; [rewrite Hs; now rewrite <- !app_assoc|].
    split.
    { unfold requests in *. rewrite !filter_app, Hnoreq, Hreq. reflexivity. }
    split; [assumption|].
    destruct res as [r'|e|]; cbn [loop_end] in *.
    + destruct Hend as (n & Hc & Hr & Hrp & Hwhy).
      exists (S n). subst cnt. fold base.
      replace (base + S n)%nat with (S base + n)%nat by lia.
      replace (tries + Z.of_nat (S n) + 1)
        with (tries + 1 + Z.of_nat n + 1) by lia.
      repeat split; assumption.
    + destruct Hend as (n & Hc & He & Hrp & Hk & Hnil & Hx).
      exists (S n). subst cnt. fold base.
      replace (base + S n)%nat with (S base + n)%nat by lia.
      replace (tries + Z.of_nat (S n) + 1)
        with (tries + 1 + Z.of_nat n + 1) by lia.
      repeat split; assumption.
    + destruct Hend as (Hc & Hall').
      split; [congruence|].
      intros k Hk. destruct (Nat.eq_dec k base) as [->|Hne]; [assumption|].
      apply Hshift; [lia|]. apply Hall'. lia.
Qed.

End LoopFacts.

Lemma escalate_finishes (mode : RaiseMode) (r : RPCReply) (s s' : RPC)
    (res : result RPCReply) :
  escalate mode r s = (s', res) -> res <> OutOfFuel.
Proof.
  rewrite escalate_eq. cbv zeta. intros H Hout. subst res.
  inversion H as [[Hs Hres]]. revert Hres.
  destruct (ok r); [discriminate|].
  destruct mode; [discriminate | |].
  - destruct (error r) as [e|]; [|discriminate].
    destruct (severity e =? "error")%string; [|discriminate].
    destruct (_reply s); discriminate.
  - destruct (_reply s); discriminate.
Qed.

(** A blocking call is the loop run from [armed self], then the saved mode
    applied to what the loop returned; the loop's final state is the
    call's. *)
Lemma blocking_run (device : nat -> ele -> RPCReply) (fuel : nat)
    (target : string) (retries : Z) (interval : duration) (self self' : RPC)
    (res : result RPCReply) :
  Lock_request device fuel target true retries interval self = (self', res) ->
  exists res1,
    lock_loop device fuel (lock_node target) retries interval 0 (armed self)
      = (self', res1)
    /\ loop_post device (lock_node target) retries 0 fuel (armed self) self' res1
    /\ and_then (self', res1) (escalate (_raise_mode self)) = (self', res).
Proof.
  rewrite Lock_request_blocking.
  destruct (lock_loop device fuel (lock_node target) retries interval 0
              (armed self)) as [s1 res1] eqn:Hloop.
  intros Hrun.
  assert (Hs : s1 = self').
  { destruct res1 as [r|e|]; cbn [and_then] in Hrun.
    - symmetry. eapply escalate_state. eassumption.
    - now inversion Hrun.
    - now inversion Hrun. }
  subst s1. exists res1. split; [reflexivity|]. split; [|assumption].
  apply (lock_loop_post device (lock_node target) retries interval fuel);
    [reflexivity|assumption].
Qed.

(** With a positive bound, [retries + 1] iterations are always enough. *)
Lemma bounded_loop_ends (device : nat -> ele -> RPCReply) (node : ele)
    (retries : Z) (tries : Z) (fuel : nat) (self self' : RPC) :
  0 < retries -> (0 < fuel)%nat -> retries < tries + Z.of_nat fuel ->
  ~ loop_post device node retries tries fuel self self' OutOfFuel.
Proof.
  intros Hpos Hsome Hfuel (_ & evs & cnt & _ & _ & _ & Hc & Hall).
  subst cnt.
  destruct fuel as [|fuel]; [lia|].
  destruct (Hall (requests_sent (session self) + fuel)%nat) as [_ Hn]; [lia|].
  apply Hn. unfold exhausted. lia.
Qed.

(** ** The claims *)

(** C8. A non-blocking call ([blocking = false]) is the channel call on the
    lock request for [target] and nothing else: exactly one request is put
    on the session whatever the reply, the request is
    [<lock><target><T/></target></lock>], and the outcome, returned reply or
    raised exception alike, is the channel's own under the mode the object
    already had, which is left untouched. *)
Theorem nonblocking_sends_one_request :
  forall (device : nat -> ele -> RPCReply) (fuel : nat) (target : string)
         (retries : Z) (interval : duration) (self : RPC),
    let reply := device (requests_sent (session self)) (lock_node target) in
    let out := Lock_request device fuel target false retries interval self in
    out = _request device (lock_node target) self
    /\ lock_node target = Ele "lock" [Ele "target" [Ele target []]]
    /\ session (fst out)
       = session self ++ [Sent (lock_node target) (_raise_mode self)]
    /\ requests_sent (session (fst out)) = S (requests_sent (session self))
    /\ _reply (fst out) = Some reply
    /\ _raise_mode (fst out) = _raise_mode self
    /\ snd out = (if channel_raises (_raise_mode self) reply
                  then Raise (errors_exn reply) else Ret reply).
Proof.
  intros device fuel target retries interval self reply out.
  assert (Hout : out = _request device (lock_node target) self) by reflexivity.
  split; [exact Hout|]. split; [reflexivity|].
  rewrite Hout. unfold _request. fold reply.
  destruct (channel_raises (_raise_mode self) reply);
    rewrite ?raise_errors_exn; cbn [fst snd session _reply _raise_mode];
    (repeat split; try reflexivity);
    rewrite requests_sent_app; change (requests_sent [Sent _ _]) with 1%nat;
    lia.
Qed.

(** C3. With [retries = N > 0] in blocking mode and a device that answers
    every attempt with a not-ok reply whose primary tag is "lock-denied",
    any fuel above [N] lets the call finish; it puts exactly [N + 1] lock
    requests for the target on the session, the last reply [r] is not ok,
    and the outcome is the saved mode applied to [r]. *)
Theorem blocking_lock_denied_attempts :
  forall (device : nat -> ele -> RPCReply) (N : Z) (fuel : nat)
         (target : string) (interval : duration) (self : RPC),
    0 < N ->
    (Z.to_nat N < fuel)%nat ->
    (forall k, lock_denied (device k (lock_node target))) ->
    exists self' res evs r,
      Lock_request device fuel target true N interval self = (self', res)
      /\ session self' = session self ++ evs
      /\ requests evs = repeat (Sent (lock_node target) NONE) (Z.to_nat N + 1)
      /\ _reply self' = Some r
      /\ ok r = false
      /\ res <> OutOfFuel
      /\ escalate (_raise_mode self) r self' = (self', res).
Proof.
  intros device N fuel target interval self HN Hfuel Hden.
  destruct (Lock_request device fuel target true N interval self)
    as [self' res] eqn:Hrun.
  destruct (blocking_run _ _ _ _ _ _ _ _ Hrun) as (res1 & Hloop & Hpost & Hres).
  destruct res1 as [r|e|].
  - destruct Hpost as (_ & evs & cnt & Hs & Hreq & Hprior & n & Hc & Hr & Hrp & Hwhy).
    rewrite requests_sent_armed in *.
    set (base := requests_sent (session self)) in *.
    destruct (Hden (base + n)%nat) as (Hnok & e & rest & Herr & Htag).
    rewrite <- Hr in Hnok, Herr.
    assert (Hex : exhausted N (0 + Z.of_nat n + 1)).
    { destruct Hwhy as [Hok | [[_ Hex] | [[_ (e' & rest' & He' & Hne)] _]]].
      - congruence.
      - assumption.
      - rewrite Herr in He'. inversion He'; subst. contradiction. }
    assert (Hn : n = Z.to_nat N).
    { destruct Hex as [_ Hlt].
      destruct n as [|m]; [lia|].
      destruct (Hprior (base + m)%nat) as [_ Hnot]; [lia|lia|].
      unfold exhausted in Hnot. lia. }
    cbn [and_then] in Hres.
    exists self', res, ([Logged UsingBlocking] ++ evs), r.
    split; [reflexivity|].
    split; [rewrite Hs; unfold armed; cbn [session]; now rewrite <- app_assoc|].
    split.
    { unfold requests in *. rewrite filter_app, Hreq. cbn [filter is_sent app].
      f_equal. lia. }
    split; [assumption|]. split; [assumption|]. split; [|assumption].
    rewrite (escalate_spec _ _ _ Hrp) in Hres. rewrite Hnok in Hres.
    inversion Hres as [Hres']. clear Hres.
    destruct (_raise_mode self); try discriminate.
    destruct (error r) as [e1|]; [|discriminate].
    destruct (severity e1 =? "error")%string; discriminate.
  - exfalso.
    destruct Hpost as (_ & evs & cnt & _ & _ & _ & n & _ & _ & _ & _ & Hnil & _).
    destruct (Hden (requests_sent (session (armed self)) + n)%nat)
      as (_ & e' & rest & Herr & _).
    congruence.
  - exfalso. revert Hpost. apply bounded_loop_ends; lia.
Qed.

Lemma blocking_lock_denied_attempts_witness :
  0 < 3
  /\ (Z.to_nat 3 < 4)%nat
  /\ (forall k, lock_denied (always (failed [denied_error]) k (lock_node "candidate")))
  /\ exists self' res evs r,
      Lock_request (always (failed [denied_error])) 4 "candidate" true 3
        DEFAULT_BLOCKING_WAIT (fresh ALL) = (self', res)
      /\ session self' = session (fresh ALL) ++ evs
      /\ requests evs = repeat (Sent (lock_node "candidate") NONE) (Z.to_nat 3 + 1)
      /\ _reply self' = Some r
      /\ ok r = false
      /\ res <> OutOfFuel
      /\ escalate (_raise_mode (fresh ALL)) r self' = (self', res).
Proof.
  assert (H : forall k,
             lock_denied (always (failed [denied_error]) k (lock_node "candidate"))).
  { intros k. split; [reflexivity|]. exists denied_error, []. split; reflexivity. }
  split; [lia|]. split; [simpl; lia|]. split; [exact H|].
  apply (blocking_lock_denied_attempts (always (failed [denied_error])) 3 4
           "candidate" DEFAULT_BLOCKING_WAIT (fresh ALL));
    [lia | simpl; lia | exact H].
Defined.

(** C5, as stated, fails: with [retries = 0], a lock-denied reply followed
    by a not-ok reply that carries no error ends the loop after two
    requests, by the IndexError of the tag check of line 60; the reply it
    ends on is neither ok nor a failure with a tag other than
    "lock-denied". *)
Lemma empty_errors_end_the_unbounded_loop :
  let out := lock_loop (scripted [failed [denied_error]] (failed [])) 5
               (lock_node "candidate") 0 DEFAULT_BLOCKING_WAIT 0
               (armed (fresh NONE)) in
  snd out = Raise IndexError
  /\ requests_sent (session (fst out)) = 2%nat
  /\ _reply (fst out) = Some (failed [])
  /\ ~ (ok (failed []) = true \/ non_retryable (failed [])).
Proof.
  repeat split.
  intros [H | (_ & e & rest & H & _)]; discriminate H.
Qed.

(** C5, amended. In a blocking call, a not-ok reply whose primary tag is not
    "lock-denied" is the last one asked for: no request follows it, whatever
    [retries] is.  With [retries <= 0] the loop stops in one of three ways
    only: it hands over a last result that is ok, or one that is such a
    non-retryable failure, or it fails with the IndexError of the tag check
    on a not-ok reply that carries no error.  No count of attempts stops
    it: against a device that always answers lock-denied it uses up any
    fuel, one request per unit. *)
Theorem non_retryable_error_ends_loop :
  forall (device : nat -> ele -> RPCReply) (fuel : nat) (target : string)
         (retries : Z) (interval : duration) (self self' : RPC)
         (res : result RPCReply),
    Lock_request device fuel target true retries interval self = (self', res) ->
    (forall k,
        (requests_sent (session self) <= k < requests_sent (session self'))%nat ->
        non_retryable (device k (lock_node target)) ->
        requests_sent (session self') = S k /\ res <> OutOfFuel)
    /\ (exists res1,
          lock_loop device fuel (lock_node target) retries interval 0
            (armed self) = (self', res1)
          /\ (retries <= 0 -> res1 <> OutOfFuel ->
              exists r,
                _reply self' = Some r
                /\ ((res1 = Ret r /\ ok r = true)
                    \/ (res1 = Ret r /\ non_retryable r)
                    \/ (res1 = Raise IndexError
                        /\ ok r = false /\ errors r = []))))
    /\ (retries <= 0 ->
        (forall k, lock_denied (device k (lock_node target))) ->
        res = OutOfFuel
        /\ requests_sent (session self')
           = (requests_sent (session self) + fuel)%nat).
Proof.
  intros device fuel target retries interval self self' res Hrun.
  destruct (blocking_run _ _ _ _ _ _ _ _ Hrun) as (res1 & Hloop & Hpost & Hres).
  destruct Hpost as (_ & evs & cnt & Hs & Hreq & Hprior & Hend).
  rewrite requests_sent_armed in *.
  set (base := requests_sent (session self)) in *.
  assert (Hcount : requests_sent (session self') = (base + cnt)%nat).
  { rewrite Hs, requests_sent_app, requests_sent_armed.
    rewrite (requests_sent_requests evs), Hreq, repeat_length. reflexivity. }
  split; [|split].
  - intros k Hk (_ & e & rest & Herr & Hne).
    rewrite Hcount in *.
    assert (Hlast : forall j, (base <= j)%nat -> (S j < base + cnt)%nat ->
                               j <> k).
    { intros j Hj1 Hj2 ->.
      destruct (Hprior k Hj1 Hj2) as [(_ & e' & rest' & Herr' & Htag) _].
      rewrite Herr in Herr'. inversion Herr'; subst. contradiction. }
    assert (Heq : (base + cnt)%nat = S k).
    { destruct (Nat.eq_dec (S k) (base + cnt)) as [Heq|Hneq]; [now symmetry|].
      exfalso. apply (Hlast k); lia. }
    split; [assumption|].
    destruct res1 as [r|e'|]; cbn [and_then loop_end] in Hres, Hend.
    + eapply escalate_finishes. eassumption.
    + inversion Hres. discriminate.
    + exfalso. destruct Hend as [_ Hall].
      destruct (Hall k) as [(_ & e' & rest' & Herr' & Htag) _]; [lia|].
      rewrite Herr in Herr'. inversion Herr'; subst. contradiction.
  - exists res1. split; [exact Hloop|].
    intros Hret Hfin.
    destruct res1 as [r|e|]; cbn [loop_end] in Hend; [| |congruence].
    + destruct Hend as (n & _ & _ & Hrep & [Hok | [[_ [Hpos _]] | [Hnr _]]]).
      * exists r. split; [assumption|]. left. now split.
      * lia.
      * exists r. split; [assumption|]. right; left. now split.
    + destruct Hend as (n & _ & He & Hrep & Hnok & Hnil & _).
      eexists. split; [exact Hrep|]. right; right. subst e. now repeat split.
  - intros Hret Hden.
    destruct res1 as [r|e|]; cbn [loop_end] in Hend.
    + exfalso.
      destruct Hend as (n & _ & Hr & _ & Hwhy).
      destruct (Hden (base + n)%nat) as (Hnok & e & rest & Herr & Htag).
      rewrite <- Hr in Hnok, Herr.
      destruct Hwhy as [Hok | [[_ [Hpos _]] | [(_ & e' & rest' & He' & Hne) _]]].
      * congruence.
      * lia.
      * rewrite Herr in He'. inversion He'; subst. contradiction.
    + exfalso.
      destruct Hend as (n & _ & _ & _ & _ & Hnil & _).
      destruct (Hden (base + n)%nat) as (_ & e' & rest & Herr & _).
      congruence.
    + destruct Hend as [Hc _]. cbn [and_then] in Hres.
      inversion Hres. split; [reflexivity|]. rewrite Hcount. now subst cnt.
Qed.

Lemma non_retryable_error_ends_loop_witness :
  exists self' res,
    Lock_request (scripted [failed [denied_error]; failed [sessions_error]] ok_reply)
      5 "candidate" true 0 DEFAULT_BLOCKING_WAIT (fresh ALL) = (self', res)
    /\ requests_sent (session self') = 2%nat
    /\ res = Raise (ExnRPCError sessions_error)
    /\ (forall k,
          (requests_sent (session (fresh ALL)) <= k
           < requests_sent (session self'))%nat ->
          non_retryable
            (scripted [failed [denied_error]; failed [sessions_error]] ok_reply
               k (lock_node "candidate")) ->
          requests_sent (session self') = S k /\ res <> OutOfFuel).
Proof.
  eexists. eexists. split; [cbv; reflexivity|].
  split; [reflexivity|]. split; [reflexivity|].
  apply (non_retryable_error_ends_loop
           (scripted [failed [denied_error]; failed [sessions_error]] ok_reply)
           5 "candidate" 0 DEFAULT_BLOCKING_WAIT (fresh ALL) _ _ eq_refl).
Defined.



(** C7. Under the mode ERRORS, blocking or not, when the call ends with a
    last reply that is not ok and whose first error has severity "warning",
    nothing is raised and that reply, with [ok = false], is what the call
    returns; the errors after the first play no part. *)
Theorem warning_is_returned_under_ERRORS :
  forall (device : nat -> ele -> RPCReply) (blocking : bool) (fuel : nat)
         (target : string) (retries : Z) (interval : duration) (self self' : RPC)
         (res : result RPCReply) (r : RPCReply) (e : RPCError)
         (rest : list RPCError),
    _raise_mode self = ERRORS ->
    Lock_request device fuel target blocking retries interval self
      = (self', res) ->
    res <> OutOfFuel ->
    _reply self' = Some r ->
    ok r = false ->
    errors r = e :: rest ->
    severity e = "warning" ->
    res = Ret r /\ ok r = false.
Proof.
  intros device blocking fuel target retries interval self self' res r e rest
    Hmode Hrun Hfin Hrep Hok Herr Hsev.
  split; [|assumption].
  assert (Herror : error r = Some e) by (unfold error; now rewrite Herr).
  assert (Hnot : (severity e =? "error")%string = false) by now rewrite Hsev.
  destruct blocking.
  - destruct (blocking_run _ _ _ _ _ _ _ _ Hrun) as (res1 & _ & Hpost & Hres).
    destruct Hpost as (_ & evs & cnt & _ & _ & _ & Hend).
    destruct res1 as [r0|e0|]; cbn [and_then loop_end] in Hres, Hend.
    + destruct Hend as (n & _ & _ & Hrep0 & _).
      assert (r0 = r) by congruence. subst r0.
      rewrite (escalate_spec _ _ _ Hrep), Hok, Hmode, Herror, Hnot in Hres.
      now inversion Hres.
    + destruct Hend as (n & _ & _ & Hrep0 & _ & Hnil & _).
      congruence.
    + inversion Hres. congruence.
  - change (Lock_request device fuel target false retries interval self)
      with (_request device (lock_node target) self) in Hrun.
    unfold _request in Hrun. rewrite Hmode in Hrun.
    set (reply := device (requests_sent (session self)) (lock_node target)) in *.
    assert (Hr : reply = r).
    { destruct (channel_raises ERRORS reply);
        rewrite ?raise_errors_exn in Hrun; inversion Hrun as [[Hs Hres]];
        subst self'; cbn [_reply] in Hrep; congruence. }
    rewrite Hr in Hrun. unfold channel_raises in Hrun.
    rewrite Herror, Hnot in Hrun. simpl in Hrun. now inversion Hrun.
Qed.

Lemma warning_is_returned_under_ERRORS_witness :
  exists self' res,
    Lock_request (scripted [failed [denied_error]]
                    (failed [warning_error; sessions_error]))
      5 "candidate" true 0 DEFAULT_BLOCKING_WAIT (fresh ERRORS) = (self', res)
    /\ res = Ret (failed [warning_error; sessions_error])
    /\ ok (failed [warning_error; sessions_error]) = false.
Proof.
  eexists. eexists. split; [cbv; reflexivity|].
  eapply (warning_is_returned_under_ERRORS
            (scripted [failed [denied_error]]
               (failed [warning_error; sessions_error]))
            true 5 "candidate" 0 DEFAULT_BLOCKING_WAIT (fresh ERRORS));
    [reflexivity | cbv; reflexivity | discriminate | reflexivity | reflexivity
    | reflexivity | reflexivity].
Defined.

(** C4, at the failing input. A blocking call made under the mode ALL that
    ends with a last reply that is not ok raises the error itself when the
    reply carries exactly one; when it carries two or more, line 78 looks up
    the name [RPCError], which lock.py does not bind, and what is raised is
    a NameError: no aggregate carrying the errors is raised. *)
Theorem blocking_ALL_several_errors_raise_NameError :
  forall (device : nat -> ele -> RPCReply) (fuel : nat) (target : string)
         (retries : Z) (interval : duration) (self self' : RPC)
         (res : result RPCReply) (r : RPCReply),
    _raise_mode self = ALL ->
    Lock_request device fuel target true retries interval self = (self', res) ->
    res <> OutOfFuel ->
    _reply self' = Some r ->
    ok r = false ->
    (forall e, errors r = [e] -> res = Raise (ExnRPCError e))
    /\ ((2 <= length (errors r))%nat ->
        res = Raise NameError
        /\ res <> Raise (ExnAggregate (_raw r) (errors r))).
Proof.
  intros device fuel target retries interval self self' res r
    Hmode Hrun Hfin Hrep Hok.
  destruct (blocking_run _ _ _ _ _ _ _ _ Hrun) as (res1 & _ & Hpost & Hres).
  destruct Hpost as (_ & evs & cnt & _ & _ & _ & Hend).
  destruct res1 as [r0|e0|]; cbn [and_then loop_end] in Hres, Hend.
  - destruct Hend as (n & _ & _ & Hrep0 & _).
    assert (r0 = r) by congruence. subst r0.
    rewrite (escalate_spec _ _ _ Hrep), Hok, Hmode in Hres.
    inversion Hres as [Hres']. split.
    + intros e He. now rewrite (last_exn_single _ _ He).
    + intros Hlen. rewrite (last_exn_several _ Hlen).
      split; [reflexivity | discriminate].
  - destruct Hend as (n & _ & _ & Hrep0 & _ & Hnil & _).
    assert (Hnone : errors r = []) by congruence.
    split.
    + intros e He. congruence.
    + rewrite Hnone. simpl. lia.
  - inversion Hres. congruence.
Qed.

Lemma blocking_ALL_several_errors_raise_NameError_witness :
  exists self' res,
    Lock_request (scripted [failed [denied_error]]
                    (failed [warning_error; sessions_error]))
      5 "candidate" true 1 DEFAULT_BLOCKING_WAIT (fresh ALL) = (self', res)
    /\ res = Raise NameError
    /\ (forall e, errors (failed [warning_error; sessions_error]) = [e] ->
                  res = Raise (ExnRPCError e))
    /\ ((2 <= length (errors (failed [warning_error; sessions_error])))%nat ->
        res = Raise NameError
        /\ res <> Raise (ExnAggregate
                           (_raw (failed [warning_error; sessions_error]))
                           (errors (failed [warning_error; sessions_error])))).
Proof.
  eexists. eexists. split; [cbv; reflexivity|]. split; [reflexivity|].
  eapply (blocking_ALL_several_errors_raise_NameError
            (scripted [failed [denied_error]]
               (failed [warning_error; sessions_error]))
            5 "candidate" 1 DEFAULT_BLOCKING_WAIT (fresh ALL));
    [reflexivity | cbv; reflexivity | discriminate | reflexivity | reflexivity].
Defined.

(** C2, as stated, fails: a blocking call on an object whose mode is ALL
    leaves the mode at NONE, both when the call returns (the device says ok
    at once) and when it raises at the final step (the device keeps saying
    lock-denied until the bound is reached). *)
Lemma blocking_does_not_restore_raise_mode :
  (let out := Lock_request (always ok_reply) 5 "candidate" true 0
                DEFAULT_BLOCKING_WAIT (fresh ALL) in
   snd out = Ret ok_reply
   /\ _raise_mode (fst out) <> _raise_mode (fresh ALL))
  /\ (let out := Lock_request (always (failed [denied_error])) 5 "candidate"
                   true 1 DEFAULT_BLOCKING_WAIT (fresh ALL) in
      snd out = Raise (ExnRPCError denied_error)
      /\ _raise_mode (fst out) <> _raise_mode (fresh ALL)).
Proof.
  split; (split; [reflexivity | discriminate]).
Qed.

(** C2, amended. A blocking call reads the object's mode before the loop and
    sets the field to NONE; the field is not written again, so when the call
    returns or raises (or the fuel runs out) it is NONE, which is the value
    it had on entry only if that was NONE.  The mode read on entry is the
    one applied to the result the loop hands over. *)
Theorem blocking_leaves_raise_mode_NONE :
  forall (device : nat -> ele -> RPCReply) (fuel : nat) (target : string)
         (retries : Z) (interval : duration) (self self' : RPC)
         (res : result RPCReply),
    Lock_request device fuel target true retries interval self = (self', res) ->
    _raise_mode self' = NONE
    /\ (_raise_mode self' = _raise_mode self <-> _raise_mode self = NONE)
    /\ (forall r,
           lock_loop device fuel (lock_node target) retries interval 0
             (armed self) = (self', Ret r) ->
           escalate (_raise_mode self) r self' = (self', res)).
Proof.
  intros device fuel target retries interval self self' res Hrun.
  destruct (blocking_run _ _ _ _ _ _ _ _ Hrun) as (res1 & Hloop & Hpost & Hres).
  destruct Hpost as (Hmode & _).
  split; [assumption|]. split.
  - rewrite Hmode. split; congruence.
  - intros r Hloop'. rewrite Hloop in Hloop'. inversion Hloop'; subst res1.
    exact Hres.
Qed.

Lemma blocking_leaves_raise_mode_NONE_witness :
  exists self' res,
    Lock_request (always (failed [denied_error])) 5 "candidate" true 1
      DEFAULT_BLOCKING_WAIT (fresh ALL) = (self', res)
    /\ _raise_mode self' = NONE
    /\ (_raise_mode self' = _raise_mode (fresh ALL)
        <-> _raise_mode (fresh ALL) = NONE)
    /\ (forall r,
           lock_loop (always (failed [denied_error])) 5 (lock_node "candidate")
             1 DEFAULT_BLOCKING_WAIT 0 (armed (fresh ALL)) = (self', Ret r) ->
           escalate (_raise_mode (fresh ALL)) r self' = (self', res)).
Proof.
  eexists. eexists. split; [cbv; reflexivity|].
  apply (blocking_leaves_raise_mode_NONE (always (failed [denied_error])) 5
           "candidate" 1 DEFAULT_BLOCKING_WAIT (fresh ALL) _ _ eq_refl).
Defined.

(** C1, at the failing input. The device answers the lock request with one
    rpc-error of severity "warning".  [__enter__] makes its Lock under the
    mode ERRORS, so nothing is raised: entry returns the context and the
    protected block runs, in non-blocking and in blocking mode alike. *)
Theorem LockContext_enter_lets_warning_pass :
  __enter__ (always (failed [warning_error])) 5 candidate []
    = ([Sent (lock_node "candidate") ERRORS], Ret candidate)
  /\ with_ (always (failed [warning_error])) 5 candidate (quiet_block "edit") []
     = ([Sent (lock_node "candidate") ERRORS;
         BlockRan "edit";
         Sent (unlock_node "candidate") ERRORS], Ret (Some tt))
  /\ with_ (always (failed [warning_error])) 5 candidate_blocking
       (quiet_block "edit") []
     = ([Logged UsingBlocking;
         Sent (lock_node "candidate") NONE;
         BlockRan "edit";
         Sent (unlock_node "candidate") ERRORS], Ret (Some tt)).
Proof. repeat split. Qed.

Lemma exit_spec (device : nat -> ele -> RPCReply) (ctx : LockContext)
    (s : Session) :
  __exit__ device ctx s =
    (s ++ [Sent (unlock_node (target ctx)) ERRORS],
     if channel_raises ERRORS (device (requests_sent s) (unlock_node (target ctx)))
     then Raise (errors_exn (device (requests_sent s) (unlock_node (target ctx))))
     else Ret false).
Proof.
  unfold __exit__, bind, on_session, Unlock_request, _request, new_RPC, ret.
  cbn [session _raise_mode _reply].
  destruct (channel_raises ERRORS
              (device (requests_sent s) (unlock_node (target ctx))));
    rewrite ?raise_errors_exn; reflexivity.
Qed.

(** C9, as stated, fails: the lock is granted, the block raises, and the
    device answers the unlock with an rpc-error of severity "error".  The
    unlock is sent once, but what the caller gets is the unlock's error, not
    the block's exception. *)
Lemma unlock_error_replaces_block_exception :
  let out := with_ (scripted [ok_reply] (failed [sessions_error])) 5 candidate
               (failing_block "edit") [] in
  __enter__ (scripted [ok_reply] (failed [sessions_error])) 5 candidate []
    = ([Sent (lock_node "candidate") ERRORS], Ret candidate)
  /\ failing_block "edit" candidate [Sent (lock_node "candidate") ERRORS]
     = ([Sent (lock_node "candidate") ERRORS; BlockRan "edit"],
        Raise (BlockError "edit"))
  /\ fst out = [Sent (lock_node "candidate") ERRORS;
                BlockRan "edit";
                Sent (unlock_node "candidate") ERRORS]
  /\ snd out = Raise (ExnRPCError sessions_error)
  /\ snd out <> Raise (BlockError "edit").
Proof.
  repeat split. discriminate.
Qed.

(** C9, amended. When entry succeeded and the protected block raises, exit
    puts exactly one unlock request for the same target on the session,
    after everything the block did, and the scope never swallows the
    failure: the caller gets the block's exception when the unlock request
    does not raise, and the unlock's own exception when it does. *)
Theorem exit_unlocks_once_when_block_raises :
  forall (device : nat -> ele -> RPCReply) (A : Type) (fuel : nat)
         (ctx : LockContext) (block : LockContext -> M Session A)
         (sess s1 s2 : Session) (c : LockContext) (e : exn),
    __enter__ device fuel ctx sess = (s1, Ret c) ->
    block c s1 = (s2, Raise e) ->
    let reply := device (requests_sent s2) (unlock_node (target ctx)) in
    with_ device fuel ctx block sess
    = (s2 ++ [Sent (unlock_node (target ctx)) ERRORS],
       if channel_raises ERRORS reply then Raise (errors_exn reply)
       else Raise e).
Proof.
  intros device A fuel ctx block sess s1 s2 c e Henter Hblock reply.
  unfold with_. rewrite Henter, Hblock, exit_spec. fold reply.
  now destruct (channel_raises ERRORS reply).
Qed.

Lemma exit_unlocks_once_when_block_raises_witness :
  with_ (always ok_reply) 5 candidate (failing_block "edit") []
  = ([Sent (lock_node "candidate") ERRORS; BlockRan "edit"]
       ++ [Sent (unlock_node (target candidate)) ERRORS],
     if channel_raises ERRORS
          (always ok_reply
             (requests_sent [Sent (lock_node "candidate") ERRORS; BlockRan "edit"])
             (unlock_node (target candidate)))
     then Raise (errors_exn
                   (always ok_reply
                      (requests_sent
                         [Sent (lock_node "candidate") ERRORS; BlockRan "edit"])
                      (unlock_node (target candidate))))
     else Raise (BlockError "edit")).
Proof.
  apply (exit_unlocks_once_when_block_raises (always ok_reply) unit 5 candidate
           (failing_block "edit") []
           [Sent (lock_node "candidate") ERRORS]
           [Sent (lock_node "candidate") ERRORS; BlockRan "edit"]
           candidate (BlockError "edit"));
    reflexivity.
Defined.

(** C10, as stated, fails: with [retries = 1] under the mode NONE, a
    lock-denied reply followed by a not-ok reply with no errors ends at the
    bound of line 55, before the tag is looked at; nothing is indexed and
    the not-ok reply is returned. *)
Lemma empty_errors_at_the_bound_are_not_indexed :
  let out := Lock_request (scripted [failed [denied_error]] (failed [])) 5
               "candidate" true 1 DEFAULT_BLOCKING_WAIT (fresh NONE) in
  _reply (fst out) = Some (failed [])
  /\ ok (failed []) = false
  /\ errors (failed []) = []
  /\ snd out = Ret (failed [])
  /\ snd out <> Raise IndexError.
Proof.
  repeat split. discriminate.
Qed.

(** C10, amended. In the blocking path the first error of a not-ok reply
    is read unguarded: by the tag check of line 60 at every attempt that
    does not reach the bound of line 55, and by the final check at the
    attempt that does, unless the mode read on entry is NONE (the severity
    read of line 75 under ERRORS, the raise of line 80 under ALL).  So a
    not-ok reply with no errors is the last request and makes the call fail
    instead of giving an outcome by the mode: with an IndexError below the
    bound, on the missing primary error at the bound under ERRORS and ALL;
    only at the bound under NONE is nothing read and the reply returned.
    When every not-ok reply carries at least one error, the call never
    fails on a missing first error. *)
Theorem blocking_reads_first_error_unguarded :
  forall (device : nat -> ele -> RPCReply) (fuel : nat) (target : string)
         (retries : Z) (interval : duration) (self self' : RPC)
         (res : result RPCReply),
    Lock_request device fuel target true retries interval self = (self', res) ->
    ((forall k, ok (device k (lock_node target)) = false ->
                errors (device k (lock_node target)) <> []) ->
     res <> Raise IndexError /\ res <> Raise NoneError)
    /\ (forall k,
          (requests_sent (session self) <= k < requests_sent (session self'))%nat ->
          ok (device k (lock_node target)) = false ->
          errors (device k (lock_node target)) = [] ->
          requests_sent (session self') = S k
          /\ (~ exhausted retries
                  (Z.of_nat (k - requests_sent (session self)) + 1) ->
              res = Raise IndexError)
          /\ (exhausted retries
                (Z.of_nat (k - requests_sent (session self)) + 1) ->
              _raise_mode self <> NONE ->
              res = Raise NoneError)
          /\ (exhausted retries
                (Z.of_nat (k - requests_sent (session self)) + 1) ->
              _raise_mode self = NONE ->
              res = Ret (device k (lock_node target)))).
Proof.
  intros device fuel target retries interval self self' res Hrun.
  destruct (blocking_run _ _ _ _ _ _ _ _ Hrun) as (res1 & Hloop & Hpost & Hres).
  destruct Hpost as (_ & evs & cnt & Hs & Hreq & Hprior & Hend).
  rewrite requests_sent_armed in *.
  set (base := requests_sent (session self)) in *.
  assert (Hcount : requests_sent (session self') = (base + cnt)%nat).
  { rewrite Hs, requests_sent_app, requests_sent_armed.
    rewrite (requests_sent_requests evs), Hreq, repeat_length. reflexivity. }
  split.
  - intros Hwf.
    destruct res1 as [r|e|]; cbn [and_then loop_end] in Hres, Hend.
    + destruct Hend as (n & _ & Hr & Hrep & _).
      rewrite (escalate_spec _ _ _ Hrep) in Hres.
      inversion Hres as [Hres']. clear Hres.
      destruct (ok r) eqn:Hok; [split; discriminate|].
      assert (Hne : errors r <> []) by (subst r; now apply Hwf).
      destruct (last_exn_nonempty r Hne) as [Hx1 Hx2].
      assert (Hsafe : Raise (A:=RPCReply) (last_exn r) <> Raise IndexError
                      /\ Raise (A:=RPCReply) (last_exn r) <> Raise NoneError)
        by (split; intros Heq; inversion Heq; contradiction).
      destruct (_raise_mode self); [split; discriminate| |exact Hsafe].
      unfold error. destruct (errors r) as [|e1 rest]; [congruence|].
      cbn [hd_error].
      destruct (severity e1 =? "error")%string;
        [exact Hsafe | split; discriminate].
    + exfalso. destruct Hend as (n & _ & _ & _ & Hnok & Hnil & _).
      exact (Hwf _ Hnok Hnil).
    + inversion Hres. split; discriminate.
  - intros k Hk Hnok Hnil. rewrite Hcount in *.
    assert (Hnot : ~ lock_denied (device k (lock_node target))).
    { intros (_ & e & rest & Herr & _). congruence. }
    assert (Hlast : (base + cnt)%nat = S k).
    { destruct (Nat.eq_dec (S k) (base + cnt)) as [Heq|Hneq]; [now symmetry|].
      exfalso. apply Hnot. apply (Hprior k); lia. }
    split; [assumption|].
    destruct res1 as [r|e|]; cbn [and_then loop_end] in Hres, Hend.
    + destruct Hend as (n & Hc & Hr & Hrep & Hwhy).
      assert (Hk' : (base + n)%nat = k) by lia.
      rewrite Hk' in Hr. subst r.
      replace (Z.of_nat (k - base)) with (Z.of_nat n) by lia.
      assert (Hex : exhausted retries (Z.of_nat n + 1)).
      { destruct Hwhy as [Hok | [[_ Hex] | [(_ & e & rest & Herr & _) _]]].
        - congruence.
        - exact Hex.
        - congruence. }
      rewrite (escalate_spec _ _ _ Hrep), Hnok in Hres.
      split; [intros Hn; contradiction|]. split.
      * intros _ Hmode.
        assert (Hlx : last_exn (device k (lock_node target)) = NoneError)
          by (unfold last_exn, error; now rewrite Hnil).
        unfold error in Hres. rewrite Hlx, Hnil in Hres. cbn [hd_error] in Hres.
        destruct (_raise_mode self); [contradiction| |]; now inversion Hres.
      * intros _ Hmode. rewrite Hmode in Hres. now inversion Hres.
    + destruct Hend as (n & Hc & He & _ & _ & _ & Hnex).
      assert (Hk' : (base + n)%nat = k) by lia.
      replace (Z.of_nat (k - base)) with (Z.of_nat n) by lia.
      inversion Hres. subst e.
      split; [reflexivity|]. split; intros Hex; contradiction.
    + exfalso. destruct Hend as [_ Hall]. apply Hnot. apply (Hall k). lia.
Qed.

Lemma blocking_reads_first_error_unguarded_witness :
  exists self' res,
    Lock_request (scripted [failed [denied_error]] (failed [])) 5 "candidate"
      true 1 DEFAULT_BLOCKING_WAIT (fresh ERRORS) = (self', res)
    /\ res = Raise NoneError
    /\ ((forall k, ok (scripted [failed [denied_error]] (failed []) k
                         (lock_node "candidate")) = false ->
                   errors (scripted [failed [denied_error]] (failed []) k
                             (lock_node "candidate")) <> []) ->
        res <> Raise IndexError /\ res <> Raise NoneError)
    /\ (forall k,
          (requests_sent (session (fresh ERRORS)) <= k
           < requests_sent (session self'))%nat ->
          ok (scripted [failed [denied_error]] (failed []) k
                (lock_node "candidate")) = false ->
          errors (scripted [failed [denied_error]] (failed []) k
                    (lock_node "candidate")) = [] ->
          requests_sent (session self') = S k
          /\ (~ exhausted 1
                  (Z.of_nat (k - requests_sent (session (fresh ERRORS))) + 1) ->
              res = Raise IndexError)
          /\ (exhausted 1
                (Z.of_nat (k - requests_sent (session (fresh ERRORS))) + 1) ->
              _raise_mode (fresh ERRORS) <> NONE ->
              res = Raise NoneError)
          /\ (exhausted 1
                (Z.of_nat (k - requests_sent (session (fresh ERRORS))) + 1) ->
              _raise_mode (fresh ERRORS) = NONE ->
              res = Ret (scripted [failed [denied_error]] (failed []) k
                           (lock_node "candidate")))).
Proof.
  eexists. eexists. split; [cbv; reflexivity|]. split; [reflexivity|].
  apply (blocking_reads_first_error_unguarded
           (scripted [failed [denied_error]] (failed [])) 5 "candidate" 1
           DEFAULT_BLOCKING_WAIT (fresh ERRORS) _ _ eq_refl).
Defined.

(** ** The trace of the loop, event by event *)

Lemma wait_exact (interval : duration) (tries : Z) (self : RPC) :
  wait interval tries self =
    ({| _raise_mode := _raise_mode self;
        _reply := _reply self;
        session := session self
                     ++ [Slept interval; Registered] ++ attempt_log tries |},
     Ret tt).
Proof.
  unfold wait, bind, emit, ret, attempt_log. cbn [session _raise_mode _reply].
  destruct (tries mod 10 =? 0); cbn [session _raise_mode _reply];
    now rewrite <- !app_assoc.
Qed.

Lemma requests_attempt_log (tries : Z) : requests (attempt_log tries) = [].
Proof. unfold attempt_log. now destruct (tries mod 10 =? 0). Qed.

Lemma sleeps_attempt_log (tries : Z) : sleeps (attempt_log tries) = [].
Proof. unfold attempt_log. now destruct (tries mod 10 =? 0). Qed.

Lemma requests_rounds (node : ele) (interval : duration) (n : nat) :
  forall tries,
    requests (rounds node interval n tries) = repeat (Sent node NONE) n.
Proof.
  induction n as [|n IH]; intros tries; [reflexivity|].
  cbn [rounds]. unfold requests in *. rewrite !filter_app.
  fold (requests (attempt_log (tries + 1))). rewrite requests_attempt_log.
  rewrite IH. reflexivity.
Qed.

Lemma sleeps_rounds (node : ele) (interval : duration) (n : nat) :
  forall tries,
    sleeps (rounds node interval n tries) = repeat (Slept interval) n.
Proof.
  induction n as [|n IH]; intros tries; [reflexivity|].
  cbn [rounds]. unfold sleeps in *. rewrite !filter_app.
  fold (sleeps (attempt_log (tries + 1))). rewrite sleeps_attempt_log.
  rewrite IH. reflexivity.
Qed.

Lemma registered_rounds (node : ele) (interval : duration) (n : nat) :
  forall tries,
    length (filter is_registered (rounds node interval n tries)) = n.
Proof.
  induction n as [|n IH]; intros tries; [reflexivity|].
  cbn [rounds]. rewrite !filter_app, !length_app, IH.
  unfold attempt_log. now destruct ((tries + 1) mod 10 =? 0).
Qed.

(** The debug lines among [n] rounds are those of the multiples of ten the
    counter passes. *)
Lemma logged_rounds (node : ele) (interval : duration) (n : nat) :
  forall tries t,
    In (Logged (AttemptedTimes t)) (rounds node interval n tries)
    <-> (tries < t <= tries + Z.of_nat n /\ t mod 10 = 0).
Proof.
  induction n as [|n IH]; intros tries t.
  - simpl. split; [tauto | lia].
  - cbn [rounds]. rewrite !in_app_iff, IH.
    unfold attempt_log.
    destruct ((tries + 1) mod 10 =? 0) eqn:E.
    + apply Z.eqb_eq in E. simpl. split.
      * intros [[H|[H|[H|[]]]] | [[H|[]] | [H1 H2]]]; try discriminate.
        -- inversion H; subst t. split; [lia | assumption].
        -- split; [lia | assumption].
      * intros [H1 H2].
        destruct (Z.eq_dec t (tries + 1)) as [->|Hne].
        -- right; left; left. reflexivity.
        -- right; right. split; [lia | assumption].
    + apply Z.eqb_neq in E. simpl. split.
      * intros [[H|[H|[H|[]]]] | [[] | [H1 H2]]]; try discriminate.
        split; [lia | assumption].
      * intros [H1 H2].
        destruct (Z.eq_dec t (tries + 1)) as [->|Hne]; [contradiction|].
        right; right. split; [lia | assumption].
Qed.

Section TraceFacts.

Variable device : nat -> ele -> RPCReply.
Variable node : ele.
Variable retries : Z.
Variable interval : duration.

(** A run of the loop adds whole rounds and then, unless the fuel ran out,
    the one request of the turn it stopped on. *)
Lemma lock_loop_trace (fuel : nat) :
  forall (tries : Z) (self self' : RPC) (res : result RPCReply),
    _raise_mode self = NONE ->
    lock_loop device fuel node retries interval tries self = (self', res) ->
    exists n,
      (n <= fuel)%nat
      /\ session self'
         = session self ++ rounds node interval n tries ++ last_request node res.
Proof.
  induction fuel as [|fuel IH]; intros tries self self' res Hm Hrun.
  - cbn in Hrun. inversion Hrun; subst. exists 0%nat.
    split; [lia|]. simpl. now rewrite app_nil_r.
  - rewrite (lock_loop_step device node retries interval fuel tries self Hm)
      in Hrun.
    cbv zeta in Hrun.
    assert (Hone : session (after_send device node self)
                   = session self ++ [Sent node NONE])
      by (unfold after_send; simpl; now rewrite Hm).
    assert (Hstop : forall r : RPCReply,
               (after_send device node self, Ret r) = (self', res) ->
               exists n, (n <= S fuel)%nat
                 /\ session self'
                    = session self ++ rounds node interval n tries
                        ++ last_request node res).
    { intros r H. inversion H; subst self' res. exists 0%nat.
      split; [lia|]. exact Hone. }
    destruct (ok (device (requests_sent (session self)) node));
      [now apply Hstop in Hrun|].
    destruct ((0 <? retries) && (retries <? tries + 1));
      [now apply Hstop in Hrun|].
    destruct (errors (device (requests_sent (session self)) node))
      as [|e0 rest].
    { inversion Hrun; subst self' res. exists 0%nat.
      split; [lia|]. exact Hone. }
    destruct (negb (tag e0 =? "lock-denied")%string);
      [now apply Hstop in Hrun|].
    rewrite wait_exact in Hrun. cbn [fst] in Hrun.
    apply IH in Hrun; [|exact Hm].
    destruct Hrun as (n & Hn & Hs). cbn [session] in Hs.
    exists (S n). split; [lia|].
    rewrite Hs, Hone. cbn [rounds]. rewrite <- !app_assoc. reflexivity.
Qed.

End TraceFacts.

Lemma requests_sent_rounds (node : ele) (interval : duration) (n : nat)
    (tries : Z) (s : Session) :
  requests_sent (s ++ rounds node interval n tries) = (requests_sent s + n)%nat.
Proof.
  rewrite requests_sent_app, (requests_sent_requests (rounds _ _ _ _)).
  now rewrite requests_rounds, repeat_length.
Qed.

Section ForwardFacts.

Variable device : nat -> ele -> RPCReply.
Variable node : ele.
Variable retries : Z.
Variable interval : duration.

(** As long as the replies are lock-denied and the bound is not reached,
    the loop goes round: [n] such replies cost [n] units of fuel and leave
    [n] rounds on the session. *)
Lemma lock_loop_forward (n : nat) :
  forall (fuel : nat) (tries : Z) (self : RPC),
    _raise_mode self = NONE ->
    (forall k,
        (requests_sent (session self) <= k < requests_sent (session self) + n)%nat ->
        retried device node retries tries (requests_sent (session self)) k) ->
    exists s,
      lock_loop device (n + fuel) node retries interval tries self
        = lock_loop device fuel node retries interval (tries + Z.of_nat n) s
      /\ _raise_mode s = NONE
      /\ session s = session self ++ rounds node interval n tries.
Proof.
  induction n as [|n IH]; intros fuel tries self Hm Hall.
  - exists self. simpl. rewrite Z.add_0_r, app_nil_r. auto.
  - set (base := requests_sent (session self)) in *.
    destruct (Hall base) as [(Hok & e0 & rest & Herr & Htag) Hnex]; [lia|].
    rewrite Nat.sub_diag, Z.add_0_r in Hnex.
    change (S n + fuel)%nat with (S (n + fuel)).
    rewrite (lock_loop_step device node retries interval _ tries self Hm).
    cbv zeta. fold base. rewrite Hok.
    destruct ((0 <? retries) && (retries <? tries + 1)) eqn:Hex;
      [apply exhausted_test in Hex; contradiction|].
    rewrite Herr. cbv beta iota. rewrite Htag, String.eqb_refl.
    cbn [negb]. rewrite wait_exact. cbn [fst].
    match goal with
    | |- context [lock_loop _ _ _ _ _ _ ?st] => set (s1 := st)
    end.
    assert (Hs1 : session s1
                  = session self ++ [Sent node NONE; Slept interval; Registered]
                      ++ attempt_log (tries + 1)).
    { subst s1. cbn [session after_send]. rewrite Hm.
      now rewrite <- !app_assoc. }
    assert (Hb1 : requests_sent (session s1) = S base).
    { rewrite Hs1, requests_sent_app. fold base.
      rewrite (requests_sent_requests (_ ++ attempt_log _)).
      unfold requests. rewrite filter_app.
      fold (requests (attempt_log (tries + 1))).
      rewrite requests_attempt_log. simpl. lia. }
    destruct (IH fuel (tries + 1) s1) as (s & Hrun & Hms & Hss).
    { subst s1. exact Hm. }
    { intros k Hk. rewrite Hb1 in *.
      destruct (Hall k) as [Hd Hn]; [lia|]. split; [assumption|].
      replace (tries + 1 + Z.of_nat (k - S base) + 1)
        with (tries + Z.of_nat (k - base) + 1) by lia.
      assumption. }
    exists s. split; [|split; [assumption|]].
    + rewrite Hrun. f_equal. lia.
    + rewrite Hss, Hs1. cbn [rounds]. now rewrite <- !app_assoc.
Qed.

End ForwardFacts.

(** The events a blocking call adds to the session, and how its outcome
    sits with the loop's. *)
Lemma blocking_trace (device : nat -> ele -> RPCReply) (fuel : nat)
    (target : string) (retries : Z) (interval : duration) (self self' : RPC)
    (res : result RPCReply) :
  Lock_request device fuel target true retries interval self = (self', res) ->
  exists n,
    (n <= fuel)%nat
    /\ session self'
       = session self ++ [Logged UsingBlocking]
           ++ rounds (lock_node target) interval n 0
           ++ last_request (lock_node target) res.
Proof.
  intros Hrun.
  destruct (blocking_run _ _ _ _ _ _ _ _ Hrun) as (res1 & Hloop & _ & Hres).
  destruct (lock_loop_trace device (lock_node target) retries interval fuel
              0 (armed self) self' res1 eq_refl Hloop) as (n & Hn & Hs).
  exists n. split; [assumption|].
  assert (Hlast : last_request (lock_node target) res
                  = last_request (lock_node target) res1).
  { destruct res1 as [r|e|]; cbn [and_then] in Hres.
    - apply escalate_finishes in Hres. now destruct res.
    - now inversion Hres.
    - now inversion Hres. }
  rewrite Hlast, Hs. unfold armed. cbn [session]. now rewrite <- !app_assoc.
Qed.

Lemma loop_ran_out (device : nat -> ele -> RPCReply) (fuel : nat)
    (target : string) (retries : Z) (interval : duration) (self self' : RPC)
    (res res1 : result RPCReply) :
  and_then (self', res1) (escalate (_raise_mode self)) = (self', res) ->
  res = OutOfFuel -> res1 = OutOfFuel.
Proof.
  intros Hres ->. destruct res1 as [r|e|]; cbn [and_then] in Hres.
  - apply escalate_finishes in Hres. congruence.
  - inversion Hres.
  - reflexivity.
Qed.

Lemma finished_blocking_trace (device : nat -> ele -> RPCReply) (fuel : nat)
    (target : string) (retries : Z) (interval : duration) (self self' : RPC)
    (res : result RPCReply) :
  Lock_request device fuel target true retries interval self = (self', res) ->
  res <> OutOfFuel ->
  exists n,
    session self'
    = session self ++ [Logged UsingBlocking]
        ++ rounds (lock_node target) interval n 0
        ++ [Sent (lock_node target) NONE].
Proof.
  intros Hrun Hfin.
  destruct (blocking_trace _ _ _ _ _ _ _ _ Hrun) as (n & _ & Hs).
  exists n. rewrite Hs.
  destruct res; [reflexivity | reflexivity | congruence].
Qed.

(** ** Further properties of [Lock.request] *)

(** X1. A blocking call whose first [n] replies are lock-denied, with the
    bound not reached ([retries <= 0] or [n <= retries]), and whose next
    reply is ok, is granted the lock: with any fuel above [n] it returns
    that ok reply under every raise mode, having sent exactly [n + 1]
    requests, slept [n] times, and left the mode at NONE. *)
Theorem blocking_lock_granted_after_denials :
  forall (device : nat -> ele -> RPCReply) (n fuel : nat) (target : string)
         (retries : Z) (interval : duration) (self : RPC),
    (forall k,
        (requests_sent (session self) <= k < requests_sent (session self) + n)%nat ->
        lock_denied (device k (lock_node target))) ->
    ok (device (requests_sent (session self) + n)%nat (lock_node target)) = true ->
    retries <= 0 \/ Z.of_nat n <= retries ->
    (n < fuel)%nat ->
    Lock_request device fuel target true retries interval self
    = ({| _raise_mode := NONE;
          _reply := Some (device (requests_sent (session self) + n)%nat
                            (lock_node target));
          session := session self ++ [Logged UsingBlocking]
                       ++ rounds (lock_node target) interval n 0
                       ++ [Sent (lock_node target) NONE] |},
       Ret (device (requests_sent (session self) + n)%nat (lock_node target))).
Proof.
  intros device n fuel target retries interval self Hden Hok Hbound Hfuel.
  rewrite Lock_request_blocking.
  set (node := lock_node target) in *.
  set (base := requests_sent (session self)) in *.
  destruct fuel as [|f]; [lia|].
  replace (S f) with (n + S (f - n))%nat by lia.
  destruct (lock_loop_forward device node retries interval n (S (f - n)) 0
              (armed self) eq_refl) as (s & Hrun & Hms & Hss).
  { intros k Hk. rewrite requests_sent_armed in *. fold base in Hk |- *.
    split; [apply Hden; assumption|]. unfold exhausted. lia. }
  rewrite Hrun.
  rewrite (lock_loop_step device node retries interval _ _ s Hms). cbv zeta.
  assert (Hb : requests_sent (session s) = (base + n)%nat).
  { rewrite Hss, requests_sent_rounds, requests_sent_armed. reflexivity. }
  rewrite Hb, Hok. cbn [and_then].
  rewrite (escalate_spec _ _ (after_send device node s)).
  - rewrite Hok. unfold after_send. rewrite Hb, Hms, Hss.
    unfold armed. cbn [session]. now rewrite <- !app_assoc.
  - unfold after_send. cbn [_reply]. now rewrite Hb.
Qed.

Lemma blocking_lock_granted_after_denials_witness :
  Lock_request (scripted [failed [denied_error]; failed [denied_error]] ok_reply)
    5 "candidate" true 3 DEFAULT_BLOCKING_WAIT (fresh ERRORS)
  = ({| _raise_mode := NONE;
        _reply := Some (scripted [failed [denied_error]; failed [denied_error]]
                          ok_reply (requests_sent (session (fresh ERRORS)) + 2)%nat
                          (lock_node "candidate"));
        session := session (fresh ERRORS) ++ [Logged UsingBlocking]
                     ++ rounds (lock_node "candidate") DEFAULT_BLOCKING_WAIT 2 0
                     ++ [Sent (lock_node "candidate") NONE] |},
     Ret (scripted [failed [denied_error]; failed [denied_error]] ok_reply
            (requests_sent (session (fresh ERRORS)) + 2)%nat
            (lock_node "candidate"))).
Proof.
  apply (blocking_lock_granted_after_denials
           (scripted [failed [denied_error]; failed [denied_error]] ok_reply)
           2 5 "candidate" 3 DEFAULT_BLOCKING_WAIT (fresh ERRORS)).
  - intros k Hk. simpl in Hk.
    assert (Hk' : k = 0%nat \/ k = 1%nat) by lia.
    destruct Hk' as [-> | ->];
      (split; [reflexivity | exists denied_error, []; split; reflexivity]).
  - reflexivity.
  - right. simpl. lia.
  - lia.
Defined.

(** X2. A positive [retries = N] bounds a blocking call against any device
    whatever: it never puts more than [N + 1] requests on the session, and
    with fuel above [N] it always comes to an end. *)
Theorem positive_retries_bound_requests :
  forall (device : nat -> ele -> RPCReply) (fuel : nat) (target : string)
         (N : Z) (interval : duration) (self self' : RPC)
         (res : result RPCReply),
    0 < N ->
    Lock_request device fuel target true N interval self = (self', res) ->
    (requests_sent (session self')
     <= requests_sent (session self) + Z.to_nat N + 1)%nat
    /\ ((Z.to_nat N < fuel)%nat -> res <> OutOfFuel).
Proof.
  intros device fuel target N interval self self' res HN Hrun.
  destruct (blocking_run _ _ _ _ _ _ _ _ Hrun) as (res1 & Hloop & Hpost & Hres).
  split.
  - destruct Hpost as (_ & evs & cnt & Hs & Hreq & Hprior & Hend).
    rewrite requests_sent_armed in *.
    set (base := requests_sent (session self)) in *.
    assert (Hcount : requests_sent (session self') = (base + cnt)%nat).
    { rewrite Hs, requests_sent_app, requests_sent_armed.
      rewrite (requests_sent_requests evs), Hreq, repeat_length. reflexivity. }
    rewrite Hcount.
    destruct (le_lt_dec cnt 1) as [Hsmall|Hbig]; [lia|].
    destruct (Hprior (base + (cnt - 2))%nat) as [_ Hnex]; [lia|lia|].
    unfold exhausted in Hnex. lia.
  - intros Hfuel Hout.
    apply (loop_ran_out device fuel target N interval self self' res res1 Hres)
      in Hout.
    subst res1. revert Hpost. apply bounded_loop_ends; lia.
Qed.

Lemma positive_retries_bound_requests_witness :
  exists self' res,
    Lock_request (scripted [failed [denied_error]] (failed [sessions_error]))
      5 "candidate" true 2 DEFAULT_BLOCKING_WAIT (fresh NONE) = (self', res)
    /\ requests_sent (session self') = 2%nat
    /\ (requests_sent (session self')
        <= requests_sent (session (fresh NONE)) + Z.to_nat 2 + 1)%nat
    /\ ((Z.to_nat 2 < 5)%nat -> res <> OutOfFuel).
Proof.
  eexists. eexists. split; [cbv; reflexivity|]. split; [reflexivity|].
  apply (positive_retries_bound_requests
           (scripted [failed [denied_error]] (failed [sessions_error]))
           5 "candidate" 2 DEFAULT_BLOCKING_WAIT (fresh NONE) _ _);
    [lia | reflexivity].
Defined.

(** X3. The events a finished blocking call adds to the session are the
    debug line, then for some [n] exactly [n] rounds of request, sleep of
    [interval], listener registration (and periodic debug line), then one
    last request.  So it sleeps once between any two consecutive requests
    and never after the last one: [n + 1] requests, [n] sleeps, all of
    [interval], and [n] registrations. *)
Theorem blocking_sleeps_between_requests :
  forall (device : nat -> ele -> RPCReply) (fuel : nat) (target : string)
         (retries : Z) (interval : duration) (self self' : RPC)
         (res : result RPCReply),
    Lock_request device fuel target true retries interval self = (self', res) ->
    res <> OutOfFuel ->
    exists evs n,
      session self' = session self ++ evs
      /\ evs = [Logged UsingBlocking]
               ++ rounds (lock_node target) interval n 0
               ++ [Sent (lock_node target) NONE]
      /\ requests evs = repeat (Sent (lock_node target) NONE) (S n)
      /\ sleeps evs = repeat (Slept interval) n
      /\ length (filter is_registered evs) = n.
Proof.
  intros device fuel target retries interval self self' res Hrun Hfin.
  destruct (finished_blocking_trace _ _ _ _ _ _ _ _ Hrun Hfin) as (n & Hs).
  eexists. exists n. split; [exact Hs|]. split; [reflexivity|].
  split; [|split].
  - unfold requests. rewrite !filter_app.
    fold (requests (rounds (lock_node target) interval n 0)).
    rewrite requests_rounds. cbn [filter is_sent app].
    rewrite <- repeat_cons. reflexivity.
  - unfold sleeps. rewrite !filter_app.
    fold (sleeps (rounds (lock_node target) interval n 0)).
    rewrite sleeps_rounds. cbn [filter is_slept app]. now rewrite app_nil_r.
  - rewrite !filter_app, !length_app, registered_rounds. simpl. lia.
Qed.

Lemma blocking_sleeps_between_requests_witness :
  exists self' res,
    Lock_request (scripted [failed [denied_error]; failed [denied_error]] ok_reply)
      5 "candidate" true 0 DEFAULT_BLOCKING_WAIT (fresh ALL) = (self', res)
    /\ exists evs n,
      session self' = session (fresh ALL) ++ evs
      /\ evs = [Logged UsingBlocking]
               ++ rounds (lock_node "candidate") DEFAULT_BLOCKING_WAIT n 0
               ++ [Sent (lock_node "candidate") NONE]
      /\ requests evs = repeat (Sent (lock_node "candidate") NONE) (S n)
      /\ sleeps evs = repeat (Slept DEFAULT_BLOCKING_WAIT) n
      /\ length (filter is_registered evs) = n.
Proof.
  eexists. eexists. split; [cbv; reflexivity|].
  apply (blocking_sleeps_between_requests
           (scripted [failed [denied_error]; failed [denied_error]] ok_reply)
           5 "candidate" 0 DEFAULT_BLOCKING_WAIT (fresh ALL) _ _ eq_refl).
  discriminate.
Defined.

(** X4. In a finished blocking call the debug line 'Attempted to acquire
    lock t times so far' is logged for exactly the positive multiples of ten
    below the number of requests the call sent: once after each tenth failed
    attempt that is retried, and for no other count. *)
Theorem blocking_logs_every_tenth_attempt :
  forall (device : nat -> ele -> RPCReply) (fuel : nat) (target : string)
         (retries : Z) (interval : duration) (self self' : RPC)
         (res : result RPCReply),
    Lock_request device fuel target true retries interval self = (self', res) ->
    res <> OutOfFuel ->
    exists evs,
      session self' = session self ++ evs
      /\ forall t,
           In (Logged (AttemptedTimes t)) evs
           <-> (0 < t < Z.of_nat (length (requests evs)) /\ t mod 10 = 0).
Proof.
  intros device fuel target retries interval self self' res Hrun Hfin.
  destruct (finished_blocking_trace _ _ _ _ _ _ _ _ Hrun Hfin) as (n & Hs).
  eexists. split; [exact Hs|].
  intros t. unfold requests. rewrite !filter_app.
  fold (requests (rounds (lock_node target) interval n 0)).
  rewrite requests_rounds. cbn [filter is_sent app length].
  rewrite length_app, repeat_length. cbn [length].
  cbn [In]. rewrite in_app_iff, logged_rounds. cbn [In]. split.
  - intros [H | [[H1 H2] | [H|[]]]]; try discriminate.
    split; [lia | assumption].
  - intros [H1 H2]. right; left. split; [lia | assumption].
Qed.

Lemma blocking_logs_every_tenth_attempt_witness :
  let out := Lock_request (always (failed [denied_error])) 12 "candidate" true
               10 DEFAULT_BLOCKING_WAIT (fresh NONE) in
  requests_sent (session (fst out)) = 11%nat
  /\ snd out <> OutOfFuel
  /\ exists evs,
      session (fst out) = session (fresh NONE) ++ evs
      /\ forall t,
           In (Logged (AttemptedTimes t)) evs
           <-> (0 < t < Z.of_nat (length (requests evs)) /\ t mod 10 = 0).
Proof.
  intros out.
  assert (Hfin : snd out <> OutOfFuel) by (vm_compute; discriminate).
  split; [vm_compute; reflexivity|]. split; [exact Hfin|].
  apply (blocking_logs_every_tenth_attempt (always (failed [denied_error])) 12
           "candidate" 10 DEFAULT_BLOCKING_WAIT (fresh NONE)
           (fst out) (snd out) (surjective_pairing out) Hfin).
Defined.

(** ** Outcomes by raise mode *)

(** The outcome of a finished blocking call, from its last reply. *)
Lemma blocking_outcome (device : nat -> ele -> RPCReply) (fuel : nat)
    (target : string) (retries : Z) (interval : duration) (self self' : RPC)
    (res : result RPCReply) (r : RPCReply) :
  Lock_request device fuel target true retries interval self = (self', res) ->
  res <> OutOfFuel ->
  _reply self' = Some r ->
  ok r = true \/ errors r <> [] ->
  res = policy_outcome (_raise_mode self) r.
Proof.
  intros Hrun Hfin Hrep Hwf.
  destruct (blocking_run _ _ _ _ _ _ _ _ Hrun) as (res1 & _ & Hpost & Hres).
  destruct Hpost as (_ & evs & cnt & _ & _ & _ & Hend).
  destruct res1 as [r0|e0|]; cbn [and_then loop_end] in Hres, Hend.
  - destruct Hend as (n & _ & _ & Hrep0 & _).
    assert (r0 = r) by congruence. subst r0.
    rewrite (escalate_spec _ _ _ Hrep) in Hres.
    inversion Hres. reflexivity.
  - exfalso. destruct Hend as (n & _ & _ & Hrep0 & Hnok & Hnil & _).
    assert (Hr : device (requests_sent (session (armed self)) + n)%nat
                   (lock_node target) = r) by congruence.
    rewrite Hr in Hnok, Hnil. destruct Hwf; congruence.
  - inversion Hres. congruence.
Qed.

(** The outcome of a non-blocking call, from the reply it stored. *)
Lemma nonblocking_outcome (device : nat -> ele -> RPCReply) (fuel : nat)
    (target : string) (retries : Z) (interval : duration) (self self' : RPC)
    (res : result RPCReply) (r : RPCReply) :
  Lock_request device fuel target false retries interval self = (self', res) ->
  _reply self' = Some r ->
  res = (if channel_raises (_raise_mode self) r
         then Raise (errors_exn r) else Ret r).
Proof.
  change (Lock_request device fuel target false retries interval self)
    with (_request device (lock_node target) self).
  unfold _request.
  set (reply := device (requests_sent (session self)) (lock_node target)).
  intros Hrun Hrep.
  assert (Hr : reply = r).
  { destruct (channel_raises (_raise_mode self) reply);
      rewrite ?raise_errors_exn in Hrun; inversion Hrun as [[Hs Hres]];
      subst self'; cbn [_reply] in Hrep; congruence. }
  rewrite Hr in Hrun.
  destruct (channel_raises (_raise_mode self) r);
    rewrite ?raise_errors_exn in Hrun; now inversion Hrun.
Qed.

(** With the mode at NONE no call raises an rpc-error. *)
Lemma suppressed_call_raises_no_rpc_error (device : nat -> ele -> RPCReply)
    (blocking : bool) (fuel : nat) (target : string) (retries : Z)
    (interval : duration) (self self' : RPC) (res : result RPCReply) :
  _raise_mode self = NONE ->
  Lock_request device fuel target blocking retries interval self = (self', res) ->
  forall e, res = Raise e -> ~ is_rpc_exception e.
Proof.
  intros Hmode Hrun e ->. destruct blocking.
  - destruct (blocking_run _ _ _ _ _ _ _ _ Hrun) as (res1 & _ & Hpost & Hres).
    destruct Hpost as (_ & evs & cnt & _ & _ & _ & Hend).
    destruct res1 as [r0|e0|]; cbn [and_then loop_end] in Hres, Hend.
    + destruct Hend as (n & _ & _ & Hrep0 & _).
      rewrite (escalate_spec _ _ _ Hrep0), Hmode in Hres.
      destruct (ok r0); inversion Hres.
    + destruct Hend as (n & _ & He & _). inversion Hres. subst. simpl. tauto.
    + inversion Hres.
  - change (Lock_request device fuel target false retries interval self)
      with (_request device (lock_node target) self) in Hrun.
    rewrite (_request_NONE device (lock_node target) self Hmode) in Hrun.
    inversion Hrun.
Qed.

(** X5. Under the mode ERRORS, blocking or not, a call that ends with a last
    reply that is not ok and whose first error has severity "error" does
    not return: it raises that error when it is the only one; when others
    follow it, the non-blocking call raises the channel's aggregate of the
    whole list, in order, and the blocking call fails at line 78 with a
    NameError. *)
Theorem error_is_raised_under_ERRORS :
  forall (device : nat -> ele -> RPCReply) (blocking : bool) (fuel : nat)
         (target : string) (retries : Z) (interval : duration)
         (self self' : RPC) (res : result RPCReply) (r : RPCReply)
         (e : RPCError) (rest : list RPCError),
    _raise_mode self = ERRORS ->
    Lock_request device fuel target blocking retries interval self
      = (self', res) ->
    res <> OutOfFuel ->
    _reply self' = Some r ->
    ok r = false ->
    errors r = e :: rest ->
    severity e = "error" ->
    (rest = [] -> res = Raise (ExnRPCError e))
    /\ (rest <> [] -> blocking = false ->
        res = Raise (ExnAggregate (_raw r) (e :: rest)))
    /\ (rest <> [] -> blocking = true -> res = Raise NameError).
Proof.
  intros device blocking fuel target retries interval self self' res r e rest
    Hmode Hrun Hfin Hrep Hok Herr Hsev.
  assert (Herror : error r = Some e) by (unfold error; now rewrite Herr).
  assert (Hlen : rest <> [] -> (2 <= length (errors r))%nat).
  { intros Hne. rewrite Herr. destruct rest; [congruence | simpl; lia]. }
  destruct blocking.
  - assert (Hres : res = Raise (last_exn r)).
    { rewrite (blocking_outcome _ _ _ _ _ _ _ _ r Hrun Hfin Hrep)
        by (right; congruence).
      unfold policy_outcome. now rewrite Hok, Hmode, Herror, Hsev. }
    rewrite Hres. split; [|split].
    + intros ->. now rewrite (last_exn_single _ _ Herr).
    + discriminate.
    + intros Hne _. now rewrite (last_exn_several _ (Hlen Hne)).
  - assert (Hres : res = Raise (errors_exn r)).
    { rewrite (nonblocking_outcome _ _ _ _ _ _ _ _ r Hrun Hrep).
      unfold channel_raises. now rewrite Hmode, Herror, Hsev. }
    rewrite Hres. split; [|split].
    + intros ->. now rewrite (errors_exn_single _ _ Herr).
    + intros Hne _. rewrite <- Herr. apply f_equal, errors_exn_several.
      exact (Hlen Hne).
    + discriminate.
Qed.

Lemma error_is_raised_under_ERRORS_witness :
  exists self' res,
    Lock_request (scripted [failed [denied_error]]
                    (failed [sessions_error; warning_error]))
      5 "candidate" true 0 DEFAULT_BLOCKING_WAIT (fresh ERRORS) = (self', res)
    /\ res = Raise NameError
    /\ ([warning_error] = [] -> res = Raise (ExnRPCError sessions_error))
    /\ ([warning_error] <> [] -> true = false ->
        res = Raise (ExnAggregate (_raw (failed [sessions_error; warning_error]))
                       (sessions_error :: [warning_error])))
    /\ ([warning_error] <> [] -> true = true -> res = Raise NameError).
Proof.
  eexists. eexists. split; [cbv; reflexivity|]. split; [reflexivity|].
  eapply (error_is_raised_under_ERRORS
            (scripted [failed [denied_error]]
               (failed [sessions_error; warning_error]))
            true 5 "candidate" 0 DEFAULT_BLOCKING_WAIT (fresh ERRORS));
    [reflexivity | cbv; reflexivity | discriminate | reflexivity | reflexivity
    | reflexivity | reflexivity].
Defined.

(** X6. Under the mode NONE no call, blocking or not, raises an rpc-error:
    a call that finishes without tripping over a missing first error
    returns the last reply it received, ok or not. *)
Theorem NONE_returns_the_last_reply :
  forall (device : nat -> ele -> RPCReply) (blocking : bool) (fuel : nat)
         (target : string) (retries : Z) (interval : duration)
         (self self' : RPC) (res : result RPCReply),
    _raise_mode self = NONE ->
    Lock_request device fuel target blocking retries interval self
      = (self', res) ->
    (forall e, res = Raise e -> e = IndexError /\ blocking = true)
    /\ (res <> OutOfFuel -> res <> Raise IndexError ->
        exists r, res = Ret r /\ _reply self' = Some r).
Proof.
  intros device blocking fuel target retries interval self self' res
    Hmode Hrun.
  destruct blocking.
  - destruct (blocking_run _ _ _ _ _ _ _ _ Hrun) as (res1 & _ & Hpost & Hres).
    destruct Hpost as (_ & evs & cnt & _ & _ & _ & Hend).
    destruct res1 as [r0|e0|]; cbn [and_then loop_end] in Hres, Hend.
    + destruct Hend as (n & _ & _ & Hrep0 & _).
      rewrite (escalate_spec _ _ _ Hrep0), Hmode in Hres.
      assert (Hret : res = Ret r0) by (destruct (ok r0); now inversion Hres).
      subst res. split; [discriminate|]. intros _ _. now exists r0.
    + destruct Hend as (n & _ & He & _). inversion Hres. subst.
      split; [intros e He; now inversion He | congruence].
    + inversion Hres. split; [discriminate | congruence].
  - change (Lock_request device fuel target false retries interval self)
      with (_request device (lock_node target) self) in Hrun.
    rewrite (_request_NONE device (lock_node target) self Hmode) in Hrun.
    inversion Hrun. split; [discriminate|]. intros _ _.
    eexists. split; reflexivity.
Qed.

Lemma NONE_returns_the_last_reply_witness :
  exists self' res,
    Lock_request (always (failed [denied_error; sessions_error])) 5 "candidate"
      true 2 DEFAULT_BLOCKING_WAIT (fresh NONE) = (self', res)
    /\ res = Ret (failed [denied_error; sessions_error])
    /\ (forall e, res = Raise e -> e = IndexError /\ true = true)
    /\ (res <> OutOfFuel -> res <> Raise IndexError ->
        exists r, res = Ret r /\ _reply self' = Some r).
Proof.
  eexists. eexists. split; [cbv; reflexivity|]. split; [reflexivity|].
  apply (NONE_returns_the_last_reply
           (always (failed [denied_error; sessions_error])) true 5 "candidate"
           2 DEFAULT_BLOCKING_WAIT (fresh NONE) _ _ eq_refl eq_refl).
Defined.

(** X7. A blocking call whose last reply is ok returns it under every raise
    mode, whatever errors that reply may list besides: the final check of
    line 74 looks at [ok] alone. *)
Theorem blocking_ok_reply_is_returned :
  forall (device : nat -> ele -> RPCReply) (fuel : nat) (target : string)
         (retries : Z) (interval : duration) (self self' : RPC)
         (res : result RPCReply) (r : RPCReply),
    Lock_request device fuel target true retries interval self = (self', res) ->
    res <> OutOfFuel ->
    _reply self' = Some r ->
    ok r = true ->
    res = Ret r.
Proof.
  intros device fuel target retries interval self self' res r
    Hrun Hfin Hrep Hok.
  rewrite (blocking_outcome _ _ _ _ _ _ _ _ r Hrun Hfin Hrep) by now left.
  unfold policy_outcome. now rewrite Hok.
Qed.

Lemma blocking_ok_reply_is_returned_witness :
  exists self' res,
    Lock_request
      (scripted [failed [denied_error]]
         {| ok := true; errors := [warning_error]; _raw := "<rpc-reply/>" |})
      5 "candidate" true 0 DEFAULT_BLOCKING_WAIT (fresh ALL) = (self', res)
    /\ res = Ret {| ok := true; errors := [warning_error];
                    _raw := "<rpc-reply/>" |}.
Proof.
  eexists. eexists. split; [cbv; reflexivity|].
  eapply (blocking_ok_reply_is_returned
            (scripted [failed [denied_error]]
               {| ok := true; errors := [warning_error];
                  _raw := "<rpc-reply/>" |})
            5 "candidate" 0 DEFAULT_BLOCKING_WAIT (fresh ALL));
    [cbv; reflexivity | discriminate | reflexivity | reflexivity].
Defined.

(** X8. Once a blocking call has been made on a Lock object, the mode that
    call left behind governs the object: a further call on it, blocking or
    not, raises no rpc-error whatever the device answers and whatever mode
    the object was created with. *)
Theorem reused_lock_object_is_suppressed :
  forall (device : nat -> ele -> RPCReply) (fuel : nat) (target : string)
         (retries : Z) (interval : duration) (self self1 : RPC)
         (res1 : result RPCReply),
    Lock_request device fuel target true retries interval self = (self1, res1) ->
    forall (blocking2 : bool) (fuel2 : nat) (target2 : string) (retries2 : Z)
           (interval2 : duration) (self2 : RPC) (res2 : result RPCReply),
      Lock_request device fuel2 target2 blocking2 retries2 interval2 self1
        = (self2, res2) ->
      forall e, res2 = Raise e -> ~ is_rpc_exception e.
Proof.
  intros device fuel target retries interval self self1 res1 Hrun
    blocking2 fuel2 target2 retries2 interval2 self2 res2 Hrun2.
  destruct (blocking_run _ _ _ _ _ _ _ _ Hrun) as (r1 & _ & [Hmode _] & _).
  exact (suppressed_call_raises_no_rpc_error _ _ _ _ _ _ _ _ _ Hmode Hrun2).
Qed.

Lemma reused_lock_object_is_suppressed_witness :
  exists self1 res1 self2 res2,
    Lock_request (always (failed [sessions_error])) 5 "candidate" true 1
      DEFAULT_BLOCKING_WAIT (fresh ALL) = (self1, res1)
    /\ res1 = Raise (ExnRPCError sessions_error)
    /\ Lock_request (always (failed [sessions_error])) 5 "candidate" false 0
         DEFAULT_BLOCKING_WAIT self1 = (self2, res2)
    /\ res2 = Ret (failed [sessions_error])
    /\ forall e, res2 = Raise e -> ~ is_rpc_exception e.
Proof.
  eexists. eexists. eexists. eexists.
  split; [cbv; reflexivity|]. split; [reflexivity|].
  split; [cbv; reflexivity|]. split; [reflexivity|].
  eapply (reused_lock_object_is_suppressed (always (failed [sessions_error]))
            5 "candidate" 1 DEFAULT_BLOCKING_WAIT (fresh ALL) _ _ eq_refl
            false 5 "candidate" 0 DEFAULT_BLOCKING_WAIT).
  cbv; reflexivity.
Defined.

Lemma lock_loop_nonpositive (device : nat -> ele -> RPCReply) (node : ele)
    (retries : Z) (interval : duration) (fuel : nat) :
  retries <= 0 ->
  forall (tries : Z) (self : RPC),
    lock_loop device fuel node retries interval tries self
    = lock_loop device fuel node 0 interval tries self.
Proof.
  intros Hneg. induction fuel as [|fuel IH]; intros tries self; [reflexivity|].
  assert (Hoff : (0 <? retries) = false) by (apply Z.ltb_ge; lia).
  cbn [lock_loop]. unfold bind.
  destruct (_request device node self) as [s1 [r|e|]]; [|reflexivity|reflexivity].
  destruct (ok r); [reflexivity|].
  rewrite Hoff. cbn [andb Z.ltb Z.compare].
  destruct (index0 (errors r) s1) as [s2 [e0|e|]]; [|reflexivity|reflexivity].
  destruct (negb (tag e0 =? "lock-denied")%string); [reflexivity|].
  unfold emit, ret.
  destruct ((tries + 1) mod 10 =? 0); apply IH.
Qed.

(** X9. Every [retries] that is zero or negative means the same thing: the
    call behaves exactly as with [retries = 0], the mode without a bound on
    the attempts. *)
Theorem nonpositive_retries_are_unbounded :
  forall (device : nat -> ele -> RPCReply) (fuel : nat) (target : string)
         (blocking : bool) (retries : Z) (interval : duration) (self : RPC),
    retries <= 0 ->
    Lock_request device fuel target blocking retries interval self
    = Lock_request device fuel target blocking 0 interval self.
Proof.
  intros device fuel target blocking retries interval self Hneg.
  destruct blocking; [|reflexivity].
  rewrite !Lock_request_blocking.
  now rewrite (lock_loop_nonpositive device (lock_node target) retries
                 interval fuel Hneg).
Qed.

Lemma nonpositive_retries_are_unbounded_witness :
  Lock_request (scripted [failed [denied_error]; failed [denied_error]] ok_reply)
    5 "candidate" true (-3) DEFAULT_BLOCKING_WAIT (fresh ALL)
  = Lock_request (scripted [failed [denied_error]; failed [denied_error]] ok_reply)
      5 "candidate" true 0 DEFAULT_BLOCKING_WAIT (fresh ALL).
Proof.
  apply (nonpositive_retries_are_unbounded
           (scripted [failed [denied_error]; failed [denied_error]] ok_reply)
           5 "candidate" true (-3) DEFAULT_BLOCKING_WAIT (fresh ALL)).
  lia.
Defined.

(** ** Further properties of [Unlock] and [LockContext] *)

Lemma enter_spec (device : nat -> ele -> RPCReply) (fuel : nat)
    (ctx : LockContext) (sess : Session) :
  __enter__ device fuel ctx sess =
    (session (fst (Lock_request device fuel (target ctx) (blocking ctx)
                     (retries ctx) (interval ctx) (new_RPC sess ERRORS))),
     match snd (Lock_request device fuel (target ctx) (blocking ctx)
                  (retries ctx) (interval ctx) (new_RPC sess ERRORS)) with
     | Ret _ => Ret ctx
     | Raise e => Raise e
     | OutOfFuel => OutOfFuel
     end).
Proof.
  unfold __enter__, bind, on_session.
  destruct (Lock_request device fuel (target ctx) (blocking ctx) (retries ctx)
              (interval ctx) (new_RPC sess ERRORS)) as [s [r|e|]];
    reflexivity.
Qed.

(** Whatever its mode, a lock call puts nothing but lock requests for its
    target on the session. *)
Lemma lock_request_sends_lock_only (device : nat -> ele -> RPCReply)
    (blocking : bool) (fuel : nat) (target : string) (retries : Z)
    (interval : duration) (self self' : RPC) (res : result RPCReply) :
  Lock_request device fuel target blocking retries interval self = (self', res) ->
  exists evs,
    session self' = session self ++ evs
    /\ forall node mode, In (Sent node mode) evs -> node = lock_node target.
Proof.
  intros Hrun. destruct blocking.
  - destruct (blocking_run _ _ _ _ _ _ _ _ Hrun) as (res1 & _ & Hpost & _).
    destruct Hpost as (_ & evs & cnt & Hs & Hreq & _).
    exists ([Logged UsingBlocking] ++ evs). split.
    + rewrite Hs. unfold armed. cbn [session]. now rewrite <- app_assoc.
    + intros node mode [Hin|Hin]; [discriminate|].
      eapply In_requests; eassumption.
  - change (Lock_request device fuel target false retries interval self)
      with (_request device (lock_node target) self) in Hrun.
    unfold _request in Hrun.
    exists [Sent (lock_node target) (_raise_mode self)]. split.
    + destruct (channel_raises (_raise_mode self)
                  (device (requests_sent (session self)) (lock_node target)));
        rewrite ?raise_errors_exn in Hrun; inversion Hrun; reflexivity.
    + intros node mode [Hin|[]]. now inversion Hin.
Qed.

(** X10. When the lock call of [__enter__] raises, the [with] statement
    raises the same exception with the session as the lock call left it:
    the protected block is not run, and no unlock request is sent, every
    request on the session since entry being a lock request for the
    scope's target. *)
Theorem failed_entry_runs_no_block_and_no_unlock :
  forall (device : nat -> ele -> RPCReply) (A : Type) (fuel : nat)
         (ctx : LockContext) (block : LockContext -> M Session A)
         (sess s1 : Session) (e : exn),
    __enter__ device fuel ctx sess = (s1, Raise e) ->
    with_ device fuel ctx block sess = (s1, Raise e)
    /\ exists evs,
         s1 = sess ++ evs
         /\ forall node mode,
              In (Sent node mode) evs -> node = lock_node (target ctx).
Proof.
  intros device A fuel ctx block sess s1 e Henter.
  split; [unfold with_; now rewrite Henter|].
  rewrite enter_spec in Henter.
  destruct (Lock_request device fuel (target ctx) (blocking ctx) (retries ctx)
              (interval ctx) (new_RPC sess ERRORS)) as [self' res] eqn:Hrun.
  cbn [fst snd] in Henter. inversion Henter as [[Hs Hres]].
  destruct (lock_request_sends_lock_only _ _ _ _ _ _ _ _ _ Hrun)
    as (evs & Hsess & Hall).
  exists evs. split; [exact Hsess | exact Hall].
Qed.

Lemma failed_entry_runs_no_block_and_no_unlock_witness :
  __enter__ (always (failed [sessions_error])) 5 candidate_blocking []
    = ([Logged UsingBlocking; Sent (lock_node "candidate") NONE],
       Raise (ExnRPCError sessions_error))
  /\ with_ (always (failed [sessions_error])) 5 candidate_blocking
       (quiet_block "edit") []
     = ([Logged UsingBlocking; Sent (lock_node "candidate") NONE],
        Raise (ExnRPCError sessions_error))
  /\ exists evs,
       [Logged UsingBlocking; Sent (lock_node "candidate") NONE] = [] ++ evs
       /\ forall node mode,
            In (Sent node mode) evs
            -> node = lock_node (target candidate_blocking).
Proof.
  split; [reflexivity|].
  apply (failed_entry_runs_no_block_and_no_unlock
           (always (failed [sessions_error])) unit 5 candidate_blocking
           (quiet_block "edit") []
           [Logged UsingBlocking; Sent (lock_node "candidate") NONE]
           (ExnRPCError sessions_error)).
  reflexivity.
Defined.

(** X11. When entry succeeded, [__enter__] has handed the block the scope
    itself; when the block then returns a value, exit puts exactly one
    unlock request for the scope's target on the session, after everything
    the block did and under the mode ERRORS (also after a blocking entry,
    whose Lock object was left at NONE), and the statement yields the
    block's value unless that unlock raises, in which case it raises the
    unlock's exception. *)
Theorem scope_unlocks_once_after_block :
  forall (device : nat -> ele -> RPCReply) (A : Type) (fuel : nat)
         (ctx : LockContext) (block : LockContext -> M Session A)
         (sess s1 s2 : Session) (c : LockContext) (v : A),
    __enter__ device fuel ctx sess = (s1, Ret c) ->
    block c s1 = (s2, Ret v) ->
    let reply := device (requests_sent s2) (unlock_node (target ctx)) in
    c = ctx
    /\ with_ device fuel ctx block sess
       = (s2 ++ [Sent (unlock_node (target ctx)) ERRORS],
          if channel_raises ERRORS reply then Raise (errors_exn reply)
          else Ret (Some v)).
Proof.
  intros device A fuel ctx block sess s1 s2 c v Henter Hblock reply.
  split.
  - rewrite enter_spec in Henter.
    destruct (snd (Lock_request device fuel (target ctx) (blocking ctx)
                     (retries ctx) (interval ctx) (new_RPC sess ERRORS)));
      now inversion Henter.
  - unfold with_. rewrite Henter, Hblock, exit_spec. fold reply.
    now destruct (channel_raises ERRORS reply).
Qed.

Lemma scope_unlocks_once_after_block_witness :
  candidate_blocking = candidate_blocking
  /\ with_ (scripted [failed [denied_error]] ok_reply) 5 candidate_blocking
       (quiet_block "edit") []
     = ([Logged UsingBlocking; Sent (lock_node "candidate") NONE;
         Slept DEFAULT_BLOCKING_WAIT; Registered;
         Sent (lock_node "candidate") NONE; BlockRan "edit"]
          ++ [Sent (unlock_node (target candidate_blocking)) ERRORS],
        if channel_raises ERRORS
             (scripted [failed [denied_error]] ok_reply
                (requests_sent
                   [Logged UsingBlocking; Sent (lock_node "candidate") NONE;
                    Slept DEFAULT_BLOCKING_WAIT; Registered;
                    Sent (lock_node "candidate") NONE; BlockRan "edit"])
                (unlock_node (target candidate_blocking)))
        then Raise (errors_exn
                      (scripted [failed [denied_error]] ok_reply
                         (requests_sent
                            [Logged UsingBlocking;
                             Sent (lock_node "candidate") NONE;
                             Slept DEFAULT_BLOCKING_WAIT; Registered;
                             Sent (lock_node "candidate") NONE;
                             BlockRan "edit"])
                         (unlock_node (target candidate_blocking))))
        else Ret (Some tt)).
Proof.
  apply (scope_unlocks_once_after_block
           (scripted [failed [denied_error]] ok_reply) unit 5
           candidate_blocking (quiet_block "edit") []
           [Logged UsingBlocking; Sent (lock_node "candidate") NONE;
            Slept DEFAULT_BLOCKING_WAIT; Registered;
            Sent (lock_node "candidate") NONE]
           [Logged UsingBlocking; Sent (lock_node "candidate") NONE;
            Slept DEFAULT_BLOCKING_WAIT; Registered;
            Sent (lock_node "candidate") NONE; BlockRan "edit"]
           candidate_blocking tt);
    reflexivity.
Defined.

(** X12. [Unlock.request] makes one attempt and no more: whatever the
    device answers, lock-denied included, it puts exactly one request on the
    session, the unlock request for its target and never a lock request,
    leaves the object's mode as it was, and its outcome is the channel's
    own. *)
Theorem unlock_sends_one_request :
  forall (device : nat -> ele -> RPCReply) (target : string) (self : RPC),
    let reply := device (requests_sent (session self)) (unlock_node target) in
    let out := Unlock_request device target self in
    unlock_node target = Ele "unlock" [Ele "target" [Ele target []]]
    /\ (forall t, unlock_node target <> lock_node t)
    /\ session (fst out)
       = session self ++ [Sent (unlock_node target) (_raise_mode self)]
    /\ requests_sent (session (fst out)) = S (requests_sent (session self))
    /\ _reply (fst out) = Some reply
    /\ _raise_mode (fst out) = _raise_mode self
    /\ snd out = (if channel_raises (_raise_mode self) reply
                  then Raise (errors_exn reply) else Ret reply).
Proof.
  intros device target self reply out.
  split; [reflexivity|]. split; [discriminate|].
  subst out. unfold Unlock_request, _request. cbv zeta. fold reply.
  destruct (channel_raises (_raise_mode self) reply);
    rewrite ?raise_errors_exn; cbn [fst snd session _reply _raise_mode];
    (repeat split; try reflexivity);
    rewrite requests_sent_app; change (requests_sent [Sent _ _]) with 1%nat;
    lia.
Qed.
